(** * websocket.c: the RFC 6455 client frame codec and handshake

    A shallow embedding of [websocket.c].  Every C function becomes a
    computation in a small state-and-failure monad over a [world] that
    holds the connection object ([websocket_t]), the byte-stream
    transport behind [ws->net], the random source [xrand], what has
    been printed on [stderr] and the caller's [int] that
    [websocket_recv] writes the opcode to.  [return -1] is the monad's
    failure. *)

From Stdlib Require Import ZArith List Lia Bool.
From Stdlib Require Strings.String Strings.Ascii.
From coqutil Require Import Byte Word.LittleEndianList.
From coqutil Require Import Z.bitblast.
From coqutil Require Datatypes.List.
Import ListNotations.
Local Open Scope Z_scope.

Import String.StringSyntax.
Delimit Scope string_scope with string.
Bind Scope string_scope with String.string.
Abbreviation string := String.string.

(** ** Machine integers

    C integers are modelled in [Z]; a conversion to an unsigned type of
    [w] bits is a reduction modulo [2 ^ w]. *)

Definition uint8_t (z : Z) : Z := z mod 2 ^ 8.
Definition uint16_t (z : Z) : Z := z mod 2 ^ 16.
Definition uint32_t (z : Z) : Z := z mod 2 ^ 32.
Definition uint64_t (z : Z) : Z := z mod 2 ^ 64.

(** [int] has 32 bits: a conversion to it keeps the low 32 bits, read in
    two's complement.  The same is taken for an [int] sum that leaves
    the range. *)
Definition INT_MAX : Z := 2 ^ 31 - 1.
Definition int_t (z : Z) : Z := (z + 2 ^ 31) mod 2 ^ 32 - 2 ^ 31.

(** [buf[i]] for a byte buffer, as the integer the expression promotes to. *)
Definition at_ (buf : list byte) (i : nat) : Z := byte.unsigned (nth i buf Byte.x00).
Notation "buf .[ i ]" := (at_ buf i) (at level 1, left associativity, format "buf .[ i ]").

Definition Zlength {A} (l : list A) : Z := Z.of_nat (length l).

(** ** Host byte order

    [websocket.c] reads and writes multi-byte header fields through
    pointer casts ([*(uint16_t * )buf]) and the [arpa/inet.h] conversions,
    so what it computes depends on the byte order of the machine it runs
    on.  The host is a parameter of the model. *)

Inductive byte_order : Set := LittleEndian | BigEndian.

Definition be_combine (bs : list byte) : Z := le_combine (rev bs).
Definition be_split (n : nat) (v : Z) : list byte := rev (le_split n v).

Section Host.
Variable host : byte_order.

(** [*(uintN_t * )p] as an rvalue: the bytes at [p] in the host's order. *)
Definition load (bs : list byte) : Z :=
  match host with
  | LittleEndian => le_combine bs
  | BigEndian => be_combine bs
  end.

(** [*(uintN_t * )p = v]: the [n] bytes that end up at [p]. *)
Definition store (n : nat) (v : Z) : list byte :=
  match host with
  | LittleEndian => le_split n v
  | BigEndian => be_split n v
  end.

(** network-to-host: the object representation of the argument, read
    most significant byte first. *)
Definition ntohs (v : Z) : Z := be_combine (store 2 v).
Definition ntohl (v : Z) : Z := be_combine (store 4 v).

(** host-to-network: the value whose object representation is the
    argument's bytes, most significant first. *)
Definition htons (v : Z) : Z := load (be_split 2 v).
Definition htonl (v : Z) : Z := load (be_split 4 v).
End Host.

(** ** The macros of websocket.c *)

Definition WEBSOCKET_VERSION : string := "13"%string.
Definition WEBSOCKET_GUID : string := "258EAFA5-E914-47DA-95CA-C5AB0DC85B11"%string.

Definition FRAME_FIN : Z := Z.shiftl 1 7.
Definition FRAME_RSV1 : Z := Z.shiftl 1 6.
Definition FRAME_RSV2 : Z := Z.shiftl 1 5.
Definition FRAME_RSV3 : Z := Z.shiftl 1 4.
Definition FRAME_OPCODE : Z := 0xf.
Definition FRAME_MASK : Z := Z.shiftl 1 7.

(** [struct frame_hdr]: three [uint8_t] fields and a [uint64_t] length. *)
Record frame_hdr := mk_frame_hdr {
  fin : Z;
  opcode : Z;
  mask : Z;
  len : Z  (* payload length *)
}.

(** ** The world *)

(** Modelled from the spec: the transport of section 6 ([net_read],
    [net_readn], [net_write]) lives outside [websocket.c].  It is a mock
    byte stream: [rx] is what the peer still delivers, [rd] logs the data
    of every completed [net_readn] call, [tx] logs the data of every
    completed [net_write] call and [tx_credit] is the number of
    [net_write] calls that will still succeed. *)
Record net_handle := mk_net {
  rx : list byte;
  rd : list (list byte);
  tx : list (list byte);
  tx_credit : nat
}.

(** Modelled from the spec: [websocket.h] is not among the sources.
    [websocket_t] owns the transport handle and the [remaining] counter,
    an unsigned 64-bit integer like the [len] field assigned to it. *)
Record websocket_t := mk_ws {
  net : net_handle;
  remaining : Z
}.

(** Modelled from the spec: the random source [xrand] of section 6
    yields one number per call, a byte by the spec; only that it is not
    negative matters here.  [xrand_src] scripts the values it yields
    next (zeros once the script is used up).

    [recv_type] is the caller's [int] that the [type] argument of
    [websocket_recv] points to, once it has been written. *)
Record world := mk_world {
  ws : websocket_t;
  xrand_src : list N;
  stderr : list string;
  recv_type : option Z
}.

Definition set_net (f : net_handle -> net_handle) (w : world) : world :=
  mk_world (mk_ws (f (net (ws w))) (remaining (ws w))) (xrand_src w) (stderr w) (recv_type w).

Definition set_remaining (r : Z) (w : world) : world :=
  mk_world (mk_ws (net (ws w)) r) (xrand_src w) (stderr w) (recv_type w).

Definition set_type (v : Z) (w : world) : world :=
  mk_world (ws w) (xrand_src w) (stderr w) (Some v).

Definition log (msg : string) (w : world) : world :=
  mk_world (ws w) (xrand_src w) (stderr w ++ [msg]) (recv_type w).

(** ** The monad: state, and failure for [return -1] *)

Inductive result (A : Type) : Type :=
| Ret (a : A)
| Fail.
Arguments Ret {A} a.
Arguments Fail {A}.

Definition M (A : Type) : Type := world -> result A * world.

Definition ret {A} (a : A) : M A := fun w => (Ret a, w).

Definition bind {A B} (c : M A) (k : A -> M B) : M B :=
  fun w => match c w with
           | (Ret a, w') => k a w'
           | (Fail, w') => (Fail, w')
           end.

Definition fail {A} : M A := fun w => (Fail, w).

Notation "x <- c ;; k" := (bind c (fun x => k))
  (at level 61, c at next level, right associativity).
Notation "c ;;; k" := (bind c (fun _ => k))
  (at level 61, right associativity).

(** [fprintf(stderr, msg)] *)
Definition fprintf_stderr (msg : string) : M unit := fun w => (Ret tt, log msg w).

(** [fprintf(stderr, msg); return -1;] *)
Definition throw {A} (msg : string) : M A := fprintf_stderr msg ;;; fail.

(** [ret = c; if (ret == -1) { fprintf(stderr, msg); return -1; }] *)
Definition onfail {A} (c : M A) (msg : string) : M A :=
  fun w => match c w with
           | (Ret a, w') => (Ret a, w')
           | (Fail, w') => (Fail, log msg w')
           end.
Notation "c 'orelse' msg" := (onfail c msg) (at level 60, no associativity).

Definition get_remaining : M Z := fun w => (Ret (remaining (ws w)), w).
Definition put_remaining (r : Z) : M unit := fun w => (Ret tt, set_remaining r w).

(** [*type = v] *)
Definition put_type (v : Z) : M unit := fun w => (Ret tt, set_type v w).

(** *** Transport operations

    The calls answer with the data they moved.  The C functions return
    the number of bytes as an [int]: the caller's [ret] is [int_t] of
    the length.  Where [websocket.c] asks for a fixed or capped count
    (2, 4 or 8 bytes, at most 1024, at most 4095 or at most 2048) that
    is the length itself and cannot be -1; where the count is the
    caller's ([websocket_recv]) the conversion is written out. *)

(** Modelled from the spec: [net_readn] reads exactly [n] bytes or
    fails; a failed call consumes nothing. *)
Definition net_readn (n : Z) : M (list byte) :=
  fun w =>
    let h := net (ws w) in
    if n <=? Zlength (rx h) then
      let data := firstn (Z.to_nat n) (rx h) in
      (Ret data,
       set_net (fun h => mk_net (skipn (Z.to_nat n) (rx h)) (rd h ++ [data])
                                (tx h) (tx_credit h)) w)
    else (Fail, w).

(** Modelled from the spec: [net_read] reads at most [max] bytes,
    whatever is there; it fails once the peer has nothing more to
    deliver. *)
Definition net_read (max : Z) : M (list byte) :=
  fun w =>
    let h := net (ws w) in
    match rx h with
    | [] => (Fail, w)
    | _ =>
      (Ret (firstn (Z.to_nat max) (rx h)),
       set_net (fun h => mk_net (skipn (Z.to_nat max) (rx h)) (rd h)
                                (tx h) (tx_credit h)) w)
    end.

(** Modelled from the spec: [net_write] writes all of [data] in one
    call and returns its length, or fails when the link no longer
    accepts writes. *)
Definition net_write (data : list byte) : M Z :=
  fun w =>
    match tx_credit (net (ws w)) with
    | O => (Fail, w)
    | S c =>
      (Ret (Zlength data),
       set_net (fun h => mk_net (rx h) (rd h) (tx h ++ [data]) c) w)
    end.

(** Modelled from the spec: [xrand()] yields the next value of the
    source. *)
Definition xrand : M Z :=
  fun w => (Ret (Z.of_N (hd 0%N (xrand_src w))),
            mk_world (ws w) (tl (xrand_src w)) (stderr w) (recv_type w)).

(** A counted loop that collects one value per iteration. *)
Fixpoint for_each {A} (n : nat) (body : M A) : M (list A) :=
  match n with
  | O => ret []
  | S n' => a <- body ;; l <- for_each n' body ;; ret (a :: l)
  end.

(** ** Frame header decode *)

Section Codec.
Variable host : byte_order.

Definition websocket_read_frame_hdr : M frame_hdr :=
  buf <- net_readn 2 orelse "net_readn error\n" ;;
  let hdr_fin := uint8_t (Z.land buf.[0] FRAME_FIN) in
  let hdr_opcode := uint8_t (Z.land buf.[0] FRAME_OPCODE) in
  if negb (Z.land buf.[0] (Z.lor (Z.lor FRAME_RSV1 FRAME_RSV2) FRAME_RSV3) =? 0) then
    throw "RSVx reserved field, must be 0\n"
  else
    let hdr_mask := uint8_t (Z.land buf.[1] FRAME_MASK) in
    (* 0x7f = 0111 1111, Take the value of the lower seven bits *)
    let len0 := Z.land buf.[1] 0x7f in
    len1 <-
      (if len0 =? 126 then
         buf <- net_readn 2 orelse "net_readn error\n" ;;
         ret (ntohs host (load host buf))
       else if len0 =? 127 then
         buf <- net_readn 8 orelse "net_readn error\n" ;;
         let hi := uint64_t (Z.shiftl (ntohl host (Z.land (load host buf) 0xffffffff)) 32) in
         ret (Z.lor hi (ntohl host (uint32_t (Z.shiftr (load host buf) 32))))
       else ret len0) ;;
    ret (mk_frame_hdr hdr_fin hdr_opcode hdr_mask len1).

(** ** Draining the unread rest of a frame

    [while (ws->remaining > 0)]: every turn that goes on consumes at
    least one byte of [rx], so one more turn than [rx] has bytes is
    enough for the loop to leave by itself ([skip_loop_fuel]). *)
Fixpoint skip_loop (fuel : nat) : M unit :=
  match fuel with
  | O => fail
  | S fuel' =>
    r <- get_remaining ;;
    if 0 <? r then
      let n := if 1024 <? r then 1024 else r in
      buf <- net_readn n orelse "net_readn error\n" ;;
      put_remaining (uint64_t (r - Zlength buf)) ;;;
      skip_loop fuel'
    else ret tt
  end.

Definition websocket_skip_remaining : M unit :=
  fun w => skip_loop (S (length (rx (net (ws w))))) w.

(** ** Receive

    [websocket_recv(ws, type, buf, n)] with [type] not null: the result
    is what the caller has after a return other than -1, that is the
    return value [ret], the opcode stored through [type] and the bytes
    stored in [buf].  The store through [type] comes before the key and
    the payload are read and outlasts their failure: [recv_type] keeps
    it. *)
Definition websocket_recv (n : Z) : M (Z * Z * list byte) :=
  (* Skip the remaining unread data *)
  r <- get_remaining ;;
  (if 0 <? r then websocket_skip_remaining orelse "websocket_skip_remaing error\n"
   else ret tt) ;;;
  hdr <- websocket_read_frame_hdr orelse "websocket_read_frame_hdr error\n" ;;
  if fin hdr =? 0 then throw "no support continuation frame\n"
  else
    let type := opcode hdr in
    put_type type ;;;
    put_remaining (len hdr) ;;;
    (* Masking-key: 0 or 4 bytes; read into mask_key and not used again *)
    (if negb (mask hdr =? 0) then
       mask_key <- net_readn 4 orelse "net_readn error\n" ;; ret tt
     else ret tt) ;;;
    r <- get_remaining ;;
    let n := if r <? n then r else n in
    buf <- net_readn n orelse "net_readn error\n" ;;
    let ret_ := int_t (Zlength buf) in
    if ret_ =? -1 then throw "net_readn error\n"
    else
      put_remaining (uint64_t (r - ret_)) ;;;
      ret (ret_, type, buf).

(** ** Send *)

(** The payload loop [for (i = 0; i < n; i++)]: [ptr] is what is left of
    the caller's buffer from index [i] on, [payload] the filled part of
    the 2048-byte chunk buffer (its length is the C variable [len]). *)
Fixpoint send_payload (n : Z) (mask_key ptr : list byte) (i : Z)
         (payload : list byte) (nwrite : Z) : M Z :=
  match ptr with
  | [] => ret nwrite
  | b :: ptr' =>
    let payload := payload ++ [byte.xor b (nth (Z.to_nat (i mod 4)) mask_key Byte.x00)] in
    if (Zlength payload <? 2048) && (i + 1 <? n) then
      (* The buffer is not full and there is still data *)
      send_payload n mask_key ptr' (i + 1) payload nwrite
    else
      r <- net_write payload orelse "net_write error\n" ;;
      (* Reset the buffer length and start filling again *)
      send_payload n mask_key ptr' (i + 1) [] (int_t (nwrite + r))
  end.

(** The first [len] bytes of [header] before the mask key is appended:
    [header[0]], [header[1]] and the extended length. *)
Definition base_header (type n : Z) : list byte :=
  let header0 := Z.lor (Z.lor 0 FRAME_FIN) (uint8_t type) in
  let header1 := Z.lor 0 FRAME_MASK in
  if n <=? 125 then
    [byte.of_Z header0; byte.of_Z (Z.lor header1 n)]
  else if n <=? 0xffff then
    [byte.of_Z header0; byte.of_Z (Z.lor header1 126)]
      ++ store host 2 (htons host (uint16_t n))
  else
    [byte.of_Z header0; byte.of_Z (Z.lor header1 127)]
      ++ store host 4 (htonl host 0)
      ++ store host 4 (htonl host (uint32_t (Z.land n 0xffffffff))).

Definition websocket_send (type : Z) (buf : list byte) : M Z :=
  let n := Zlength buf in
  let header := base_header type n in
  (* set mask key *)
  mask_key <- for_each 4 (x <- xrand ;; ret (byte.of_Z (uint8_t (x mod 0xff)))) ;;
  let header := header ++ mask_key in
  net_write header orelse "net_write error\n" ;;; (* send header *)
  (* transformed data and send payload *)
  send_payload n mask_key buf 0 [] 0.

End Codec.

(** ** A loop-back peer: what was written comes back to be read *)
Definition loopback (w : world) : world :=
  set_net (fun h => mk_net (rx h ++ concat (tx h)) (rd h) [] (tx_credit h)) w.

(** ** C strings and buffers *)

Definition str (s : string) : list byte := String.list_byte_of_string s.
Definition crlf : list byte := [Byte.x0d; Byte.x0a].

(** The string a [char * ] denotes: the bytes before the first NUL. *)
Fixpoint c_str (buf : list byte) : list byte :=
  match buf with
  | [] => []
  | b :: buf' => if Byte.eqb b Byte.x00 then [] else b :: c_str buf'
  end.

(** [%s] in a diagnostic. *)
Definition show (buf : list byte) : string := String.string_of_list_byte (c_str buf).

Fixpoint bytes_eqb (a b : list byte) : bool :=
  match a, b with
  | [], [] => true
  | x :: a', y :: b' => Byte.eqb x y && bytes_eqb a' b'
  | _, _ => false
  end.

(** [memcmp(p, q, n) == 0] *)
Definition memcmp_eq (p q : list byte) (n : Z) : bool :=
  bytes_eqb (firstn (Z.to_nat n) p) (firstn (Z.to_nat n) q).

Definition starts_with (needle hay : list byte) : bool :=
  bytes_eqb needle (firstn (length needle) hay).

(** [strstr(hay, needle)]: the offset of the first occurrence. *)
Fixpoint strstr (hay needle : list byte) : option nat :=
  if starts_with needle hay then Some O
  else match hay with
       | [] => None
       | _ :: hay' => option_map S (strstr hay' needle)
       end.

(** A zero-filled array of [size] bytes after [data] was stored at its
    start. *)
Definition in_buffer (size : nat) (data : list byte) : list byte :=
  data ++ repeat Byte.x00 (size - length data).

(** ** Handshake *)

Section Handshake.
(** The two mbedtls primitives are parameters: [mbedtls_base64_encode dlen
    src] is the encoded text, or [None] when it does not fit [dlen]
    bytes with its terminator; [mbedtls_sha1 msg] is the 20-byte digest. *)
Variable mbedtls_base64_encode : Z -> list byte -> option (list byte).
Variable mbedtls_sha1 : list byte -> list byte.

Definition generate_websocket_key (size : Z) : M (list byte) :=
  tmp <- for_each 16 (x <- xrand ;; ret (byte.of_Z (uint8_t (x mod 0xff)))) ;;
  match mbedtls_base64_encode size tmp with
  | None => throw "mbedtls_base64_encode error\n"
  | Some buf => ret buf
  end.

Definition generate_websocket_accept (ws_key : list byte) : M (list byte) :=
  let buf := c_str ws_key ++ str WEBSOCKET_GUID in
  let ret_ := Zlength buf in
  if (ret_ <=? 0) || (256 <=? ret_) then
    throw "websocke-key or GUID length limit\n"
  else
    let output := mbedtls_sha1 buf in
    match mbedtls_base64_encode 128 output with
    | None => throw "mbedtls_base64_encode error\n"
    | Some ac_key => ret ac_key
    end.

Definition websocket_handshake (host path : list byte) : M unit :=
  (* Generate sec-websocket-key *)
  ws_key <- generate_websocket_key 128 orelse "generate_websocket_key error\n" ;;
  (* Build request message *)
  let buf :=
    str "GET " ++ c_str path ++ str " HTTP/1.1" ++ crlf
    ++ str "Host: " ++ c_str host ++ crlf
    ++ str "Upgrade: websocket" ++ crlf
    ++ str "Connection: Upgrade" ++ crlf
    ++ str "Sec-WebSocket-Key: " ++ c_str ws_key ++ crlf
    ++ str "Sec-WebSocket-Version: " ++ str WEBSOCKET_VERSION ++ crlf ++ crlf in
  let ret_ := Zlength buf in
  if (ret_ <=? 0) || (4096 <=? ret_) then throw "snprintf error\n"
  else
    (* Send websocket handshake request *)
    net_write buf orelse "net_write error\n" ;;;
    (* Receive the status returned by the websocket server and parse it *)
    buf <- net_read (4096 - 1) orelse "net_read error\n" ;;
    let buf := in_buffer 4096 buf in
    (* Check status *)
    if negb (memcmp_eq buf (str "HTTP/1.1 101 Switching Protocols") 32) then
      throw (String.append "request failed, invalid status: "
               (String.append (show buf) "\n"))
    else
      ac_key <- generate_websocket_accept ws_key
                  orelse "generate_websocket_accept error\n" ;;
      let ret_ := Zlength ac_key in
      match strstr (c_str buf) (str "Sec-WebSocket-Accept: ") with
      | None =>
        throw (String.append
                 "the handshake failed and the required Sec-WebSocket-Accept was not found: "
                 (String.append (show buf) "\n"))
      | Some ptr =>
        let ptr := (ptr + 22)%nat in (* strlen("Sec-WebSocket-Accept: "); *)
        (* Verify WebSocket-Accept *)
        if negb (memcmp_eq (skipn ptr buf) ac_key ret_) then
          throw (String.append "Sec-WebSocket-Accept verification failed: "
                   (String.append (show buf) "\n"))
        else ret tt
      end.

End Handshake.

(** ** Reference instances of the mbedtls primitives

    [websocket.c] calls mbedtls for base64 and SHA-1.  The handshake
    above takes them as parameters; these are the functions of RFC 4648
    and RFC 3174 to run it with. *)

(** RFC 4648 base64. *)
Definition base64_alphabet : list byte :=
  str "ABCDEFGHIJKLMNOPQRSTUVWXYZabcdefghijklmnopqrstuvwxyz0123456789+/".

Definition base64_digit (i : Z) : byte := nth (Z.to_nat i) base64_alphabet Byte.x00.

Fixpoint base64 (src : list byte) : list byte :=
  match src with
  | [] => []
  | [a] =>
    let a := byte.unsigned a in
    [base64_digit (Z.shiftr a 2); base64_digit (Z.shiftl (Z.land a 3) 4);
     Byte.x3d; Byte.x3d]
  | [a; b] =>
    let a := byte.unsigned a in
    let b := byte.unsigned b in
    [base64_digit (Z.shiftr a 2);
     base64_digit (Z.lor (Z.shiftl (Z.land a 3) 4) (Z.shiftr b 4));
     base64_digit (Z.shiftl (Z.land b 15) 2); Byte.x3d]
  | a :: b :: c :: src' =>
    let a := byte.unsigned a in
    let b := byte.unsigned b in
    let c := byte.unsigned c in
    base64_digit (Z.shiftr a 2)
    :: base64_digit (Z.lor (Z.shiftl (Z.land a 3) 4) (Z.shiftr b 4))
    :: base64_digit (Z.lor (Z.shiftl (Z.land b 15) 2) (Z.shiftr c 6))
    :: base64_digit (Z.land c 63)
    :: base64 src'
  end.

Definition base64_encode (dlen : Z) (src : list byte) : option (list byte) :=
  let dst := base64 src in
  if dlen <? Zlength dst + 1 then None else Some dst.

(** RFC 3174 SHA-1 on 32-bit words in [Z]. *)
Definition rotl32 (n x : Z) : Z :=
  uint32_t (Z.lor (Z.shiftl x n) (Z.shiftr x (32 - n))).

Definition sha1_pad (msg : list byte) : list byte :=
  let l := length msg in
  let k := ((64 - (l + 9) mod 64) mod 64)%nat in
  msg ++ [Byte.x80] ++ repeat Byte.x00 k ++ be_split 8 (8 * Z.of_nat l).

Fixpoint words32 (n : nat) (bs : list byte) : list Z :=
  match n with
  | O => []
  | S n' => be_combine (firstn 4 bs) :: words32 n' (skipn 4 bs)
  end.

Definition sha1_f (t : nat) (b c d : Z) : Z :=
  if (t <? 20)%nat then Z.lor (Z.land b c) (Z.land (uint32_t (Z.lnot b)) d)
  else if (t <? 40)%nat then Z.lxor (Z.lxor b c) d
  else if (t <? 60)%nat then Z.lor (Z.lor (Z.land b c) (Z.land b d)) (Z.land c d)
  else Z.lxor (Z.lxor b c) d.

Definition sha1_k (t : nat) : Z :=
  if (t <? 20)%nat then 0x5a827999
  else if (t <? 40)%nat then 0x6ed9eba1
  else if (t <? 60)%nat then 0x8f1bbcdc
  else 0xca62c1d6.

(** One round: the state [(a, b, c, d, e)] and the window of the last
    16 schedule words, oldest first. *)
Definition sha1_round (st : (Z * Z * Z * Z * Z) * list Z) (t : nat) :=
  let '((a, b, c, d, e), win) := st in
  let w := if (t <? 16)%nat then nth t win 0
           else rotl32 1 (Z.lxor (Z.lxor (Z.lxor (nth 13 win 0) (nth 8 win 0))
                                         (nth 2 win 0)) (nth 0 win 0)) in
  let win := if (t <? 16)%nat then win else tl win ++ [w] in
  let tmp := uint32_t (rotl32 5 a + sha1_f t b c d + e + w + sha1_k t) in
  ((tmp, a, rotl32 30 b, c, d), win).

Definition sha1_block (hs : Z * Z * Z * Z * Z) (block : list byte) :=
  let '(h0, h1, h2, h3, h4) := hs in
  let '((a, b, c, d, e), _) :=
    fold_left sha1_round (seq 0 80) (hs, words32 16 block) in
  (uint32_t (h0 + a), uint32_t (h1 + b), uint32_t (h2 + c),
   uint32_t (h3 + d), uint32_t (h4 + e)).

Fixpoint sha1_blocks (n : nat) (hs : Z * Z * Z * Z * Z) (bs : list byte) :=
  match n with
  | O => hs
  | S n' => sha1_blocks n' (sha1_block hs (firstn 64 bs)) (skipn 64 bs)
  end.

Definition sha1 (msg : list byte) : list byte :=
  let padded := sha1_pad msg in
  let '(h0, h1, h2, h3, h4) :=
    sha1_blocks (length padded / 64)
      (0x67452301, 0xefcdab89, 0x98badcfe, 0x10325476, 0xc3d2e1f0) padded in
  be_split 4 h0 ++ be_split 4 h1 ++ be_split 4 h2 ++ be_split 4 h3 ++ be_split 4 h4.

Definition init_world (src : list N) (input : list byte) (credit : nat) : world :=
  mk_world (mk_ws (mk_net input [] [] credit) 0) src [] None.

Definition bytes (l : list Z) : list byte := map byte.of_Z l.

(** ** Connection life cycle *)

(** Modelled from the spec: the calls on [ws->net] that open and release
    the transport ([net_connect], [net_tls_handshake], [net_close] of
    section 6), in the order they are made. *)
Inductive net_event :=
| EvConnect (host : list byte) (port : Z)
| EvTlsHandshake
| EvClose.

(** Modelled from the spec: what the network will answer. [connect_link]
    is the link [net_connect] obtains, if it obtains one; [tls_ok] tells
    whether a TLS handshake on it succeeds. *)
Record peer := mk_peer {
  connect_link : option net_handle;
  tls_ok : bool
}.

Record session := mk_session {
  s_world : world;
  s_peer : peer;
  s_events : list net_event
}.

Definition Sess (A : Type) : Type := session -> result A * session.

Definition sbind {A B} (c : Sess A) (k : A -> Sess B) : Sess B :=
  fun s => match c s with
           | (Ret a, s') => k a s'
           | (Fail, s') => (Fail, s')
           end.

(** A call of the frame layer inside a session. *)
Definition lift {A} (c : M A) : Sess A :=
  fun s => let '(r, w') := c (s_world s) in (r, mk_session w' (s_peer s) (s_events s)).

Definition s_event (e : net_event) (s : session) : session :=
  mk_session (s_world s) (s_peer s) (s_events s ++ [e]).

Definition s_set_ws (x : websocket_t) (s : session) : session :=
  mk_session (mk_world x (xrand_src (s_world s)) (stderr (s_world s))
                       (recv_type (s_world s)))
             (s_peer s) (s_events s).

(** [memset(ws, 0, sizeof(websocket_t))] *)
Definition memset_ws : Sess unit :=
  fun s => (Ret tt, s_set_ws (mk_ws (mk_net [] [] [] 0) 0) s).

(** Modelled from the spec: [net_connect] installs the link the peer
    offers, or fails; the proxy description is opaque. *)
Definition net_connect {proxy : Type} (host : list byte) (port : Z) (px : proxy) : Sess unit :=
  fun s =>
    let s1 := s_event (EvConnect host port) s in
    match connect_link (s_peer s) with
    | Some h => (Ret tt, s_set_ws (mk_ws h (remaining (ws (s_world s)))) s1)
    | None => (Fail, s1)
    end.

(** Modelled from the spec: [net_tls_handshake]. *)
Definition net_tls_handshake : Sess unit :=
  fun s =>
    let s1 := s_event EvTlsHandshake s in
    if tls_ok (s_peer s) then (Ret tt, s1) else (Fail, s1).

(** Modelled from the spec: [net_close] releases the link: nothing more
    can be read from it or written to it. *)
Definition net_close (s : session) : session :=
  let h := net (ws (s_world s)) in
  s_event EvClose
    (s_set_ws (mk_ws (mk_net [] (rd h) (tx h) 0) (remaining (ws (s_world s)))) s).

(** [ret = c; if (ret == -1) { net_close(&ws->net); fprintf(stderr, msg);
    return -1; }] *)
Definition or_close {A} (c : Sess A) (msg : string) : Sess A :=
  fun s => match c s with
           | (Ret a, s') => (Ret a, s')
           | (Fail, s') =>
             let s2 := net_close s' in
             (Fail, mk_session (log msg (s_world s2)) (s_peer s2) (s_events s2))
           end.

(** Modelled from the spec: the close opcode of [websocket.h]. *)
Definition WEBSOCKET_CLOSE : Z := 0x8.

Section LifeCycle.
Variable host_order : byte_order.
Variable mbedtls_base64_encode : Z -> list byte -> option (list byte).
Variable mbedtls_sha1 : list byte -> list byte.
(** [struct proxy] is opaque here: it is only handed on to [net_connect]. *)
Variable proxy : Type.

Definition websocket_connect (host : list byte) (port : Z) (path : list byte)
           (tls : Z) (px : proxy) : Sess unit :=
  sbind memset_ws (fun _ =>
  (* Connect to server *)
  sbind (or_close (net_connect host port px) "net_connect error\n") (fun _ =>
  sbind (if negb (tls =? 0)
         then or_close net_tls_handshake "net_tls_handshake error\n"
         else (fun s => (Ret tt, s))) (fun _ =>
  or_close (lift (websocket_handshake mbedtls_base64_encode mbedtls_sha1 host path))
           "websocket_handshake error\n"))).

(** [websocket_close] returns nothing: the result of the send is dropped. *)
Definition websocket_close : Sess unit :=
  fun s =>
    let '(_, s1) := lift (websocket_send host_order WEBSOCKET_CLOSE []) s in
    (Ret tt, net_close s1).

End LifeCycle.

(** * Vocabulary of the statements *)

(** ** Worlds after an operation *)

(** The world after a [net_readn] that returned [data] and left [rest]. *)
Definition after_readn (data rest : list byte) (w : world) : world :=
  set_net (fun h => mk_net rest (rd h ++ [data]) (tx h) (tx_credit h)) w.

(** The world after the calls [chunks] have been written. *)
Definition after_writes (chunks : list (list byte)) (w : world) : world :=
  set_net (fun h => mk_net (rx h) (rd h) (tx h ++ chunks) (tx_credit h - length chunks)) w.

(** The world after [k] values have been drawn from the random source. *)
Definition after_xrand (k : nat) (w : world) : world :=
  mk_world (ws w) (skipn k (xrand_src w)) (stderr w) (recv_type w).

(** The world once [drained] has been read off [rx] in the calls
    [chunks], leaving [rest], and the counter has come down to zero. *)
Definition drained_world (chunks : list (list byte)) (rest : list byte) (w : world) : world :=
  set_remaining 0
    (set_net (fun h => mk_net rest (rd h ++ chunks) (tx h) (tx_credit h)) w).

(** ** Headers and the counter *)

(** The header built from the two base bytes and a decoded length. *)
Definition hdr_of (b0 b1 : byte) (l : Z) : frame_hdr :=
  mk_frame_hdr (uint8_t (Z.land (byte.unsigned b0) FRAME_FIN))
               (uint8_t (Z.land (byte.unsigned b0) FRAME_OPCODE))
               (uint8_t (Z.land (byte.unsigned b1) FRAME_MASK)) l.

(** [ws->remaining] holds a [uint64_t]. *)
Definition remaining_ok (w : world) : Prop := 0 <= remaining (ws w) < 2 ^ 64.

(** ** The two phases of a receive *)

(** The two phases of [websocket_recv]: the drain of what the previous
    call left unread, and the decode of one frame. *)
Definition skip_unread : M unit :=
  fun w => if 0 <? remaining (ws w)
           then (websocket_skip_remaining orelse "websocket_skip_remaing error\n") w
           else (Ret tt, w).

Definition recv_frame (host : byte_order) (n : Z) : M (Z * Z * list byte) :=
  hdr <- websocket_read_frame_hdr host orelse "websocket_read_frame_hdr error\n" ;;
  if fin hdr =? 0 then throw "no support continuation frame\n"
  else
    put_type (opcode hdr) ;;;
    put_remaining (len hdr) ;;;
    (if negb (mask hdr =? 0) then
       mask_key <- net_readn 4 orelse "net_readn error\n" ;; ret tt
     else ret tt) ;;;
    r <- get_remaining ;;
    buf <- net_readn (if r <? n then r else n) orelse "net_readn error\n" ;;
    if int_t (Zlength buf) =? -1 then throw "net_readn error\n"
    else
      put_remaining (uint64_t (r - int_t (Zlength buf))) ;;;
      ret (int_t (Zlength buf), opcode hdr, buf).

(** ** Random bytes and masking *)

(** What [xrand() % 0xff], stored in a byte, makes of a source value. *)
Definition reduced (x : Z) : byte := byte.of_Z (uint8_t (x mod 0xff)).

(** The first [n] bytes drawn from a source script. *)
Fixpoint random_bytes (n : nat) (src : list N) : list byte :=
  match n with
  | O => []
  | S n' => reduced (Z.of_N (hd 0%N src)) :: random_bytes n' (tl src)
  end.

(** How many of the 256 values of a source byte [xrand() % 0xff] sends
    to [v]. *)
Definition preimages (v : byte) : nat :=
  length (filter (fun s => Byte.eqb (reduced (Z.of_nat s)) v) (seq 0 256)).

(** The masked payload from absolute index [i] on. *)
Fixpoint mask_from (mask_key : list byte) (i : Z) (ptr : list byte) : list byte :=
  match ptr with
  | [] => []
  | b :: ptr' =>
    byte.xor b (nth (Z.to_nat (i mod 4)) mask_key Byte.x00) :: mask_from mask_key (i + 1) ptr'
  end.

(** ** The handshake exchange *)

Definition status_line : list byte := str "HTTP/1.1 101 Switching Protocols".

(** The header name [strstr] looks for. *)
Definition accept_header : list byte := str "Sec-WebSocket-Accept: ".

(** The upgrade request for a key. *)
Definition request (host path ws_key : list byte) : list byte :=
  str "GET " ++ c_str path ++ str " HTTP/1.1" ++ crlf
  ++ str "Host: " ++ c_str host ++ crlf
  ++ str "Upgrade: websocket" ++ crlf
  ++ str "Connection: Upgrade" ++ crlf
  ++ str "Sec-WebSocket-Key: " ++ c_str ws_key ++ crlf
  ++ str "Sec-WebSocket-Version: " ++ str WEBSOCKET_VERSION ++ crlf ++ crlf.

(** The world once the request for [ws_key] is out and the response has
    been read. *)
Definition after_response (host path : list byte) (w : world) (ws_key : list byte) : world :=
  set_net (fun h => mk_net (skipn 4095 (rx h)) (rd h) (tx h) (tx_credit h))
    (after_writes [request host path ws_key] (after_xrand 16 w)).

(** ** Sessions *)

(** The world [websocket_handshake] starts from inside
    [websocket_connect]: the zeroed object with the link [h] installed. *)
Definition connected_world (h : net_handle) (s : session) : world :=
  mk_world (mk_ws h 0) (xrand_src (s_world s)) (stderr (s_world s)) (recv_type (s_world s)).

(** ** A small program logic for invariants *)

(** From a world satisfying [P], [c] ends with a result and a world
    satisfying [Q]. *)
Definition hoare {A} (P : world -> Prop) (c : M A) (Q : result A -> world -> Prop) : Prop :=
  forall w, P w -> Q (fst (c w)) (snd (c w)).

(** The counter stands at [r0]. *)
Definition at_r (r0 : Z) : world -> Prop := fun w => remaining (ws w) = r0.

(** The counter still stands at [r0], and a returned value satisfies [phi]. *)
Definition keeps {A} (r0 : Z) (phi : A -> Prop) : result A -> world -> Prop :=
  fun r w => remaining (ws w) = r0 /\ match r with Ret a => phi a | Fail => True end.

(** * Properties *)

(** ** Running the monad *)

Lemma bind_ret {A B} (c : M A) (k : A -> M B) w a w' :
  c w = (Ret a, w') -> bind c k w = k a w'.
Proof. intros H; unfold bind; rewrite H; reflexivity. Qed.

Lemma bind_fail {A B} (c : M A) (k : A -> M B) w w' :
  c w = (Fail, w') -> bind c k w = (Fail, w').
Proof. intros H; unfold bind; rewrite H; reflexivity. Qed.

Lemma onfail_ret {A} (c : M A) msg w a w' :
  c w = (Ret a, w') -> onfail c msg w = (Ret a, w').
Proof. intros H; unfold onfail; rewrite H; reflexivity. Qed.

Lemma onfail_fail {A} (c : M A) msg w w' :
  c w = (Fail, w') -> onfail c msg w = (Fail, log msg w').
Proof. intros H; unfold onfail; rewrite H; reflexivity. Qed.

Lemma throw_eq {A} msg w : @throw A msg w = (Fail, log msg w).
Proof. reflexivity. Qed.

Lemma Zlength_nonneg {A} (l : list A) : 0 <= Zlength l.
Proof. unfold Zlength; lia. Qed.

Lemma Zlength_app {A} (l l' : list A) : Zlength (l ++ l') = Zlength l + Zlength l'.
Proof. unfold Zlength; rewrite length_app; lia. Qed.

Lemma int_t_small z : 0 <= z <= INT_MAX -> int_t z = z.
Proof.
  unfold INT_MAX, int_t. intros H.
  rewrite Z.mod_small by lia. lia.
Qed.

Lemma int_t_add_l a b : int_t (int_t a + b) = int_t (a + b).
Proof.
  unfold int_t.
  replace ((a + 2 ^ 31) mod 2 ^ 32 - 2 ^ 31 + b + 2 ^ 31)
    with ((a + 2 ^ 31) mod 2 ^ 32 + b) by lia.
  rewrite Z.add_mod_idemp_l by lia. f_equal. f_equal. lia.
Qed.

Lemma int_t_idem a : int_t (int_t a) = int_t a.
Proof.
  replace (int_t (int_t a)) with (int_t (int_t a + 0)) by (f_equal; lia).
  rewrite int_t_add_l. f_equal. lia.
Qed.

Lemma int_t_range z : - 2 ^ 31 <= int_t z <= INT_MAX.
Proof.
  unfold INT_MAX, int_t. pose proof (Z.mod_pos_bound (z + 2 ^ 31) (2 ^ 32) eq_refl). lia.
Qed.

Lemma Zlength_cons {A} (a : A) l : Zlength (a :: l) = 1 + Zlength l.
Proof. unfold Zlength; cbn [length]; lia. Qed.

Lemma net_readn_ok n w data rest :
  rx (net (ws w)) = data ++ rest -> Zlength data = n ->
  net_readn n w = (Ret data, after_readn data rest w).
Proof.
  intros Hrx Hn. unfold net_readn, after_readn, set_net.
  rewrite Hrx, Zlength_app.
  assert (Hle : (n <=? Zlength data + Zlength rest) = true)
    by (apply Z.leb_le; pose proof (Zlength_nonneg rest); lia).
  rewrite Hle. subst n. unfold Zlength. rewrite Nat2Z.id.
  rewrite firstn_app, Nat.sub_diag, firstn_all, firstn_O, app_nil_r.
  rewrite skipn_app, Nat.sub_diag, skipn_all. reflexivity.
Qed.

Lemma net_readn_short n w :
  Zlength (rx (net (ws w))) < n -> net_readn n w = (Fail, w).
Proof.
  intros H. unfold net_readn.
  replace (n <=? Zlength (rx (net (ws w)))) with false; [reflexivity|].
  symmetry; apply Z.leb_gt; exact H.
Qed.

(** Either way [net_readn] answers: with the first [n] bytes, or not at all. *)
Lemma net_readn_cases n w :
  0 <= n ->
  (exists data rest, rx (net (ws w)) = data ++ rest /\ Zlength data = n /\
                     net_readn n w = (Ret data, after_readn data rest w))
  \/ (Zlength (rx (net (ws w))) < n /\ net_readn n w = (Fail, w)).
Proof.
  intros Hn. destruct (Z_le_gt_dec n (Zlength (rx (net (ws w))))) as [Hle|Hgt].
  - left. exists (firstn (Z.to_nat n) (rx (net (ws w)))), (skipn (Z.to_nat n) (rx (net (ws w)))).
    assert (Hlen : Zlength (firstn (Z.to_nat n) (rx (net (ws w)))) = n).
    { unfold Zlength in *. rewrite length_firstn. lia. }
    split; [symmetry; apply firstn_skipn|]. split; [exact Hlen|].
    apply net_readn_ok; [symmetry; apply firstn_skipn | exact Hlen].
  - right. split; [lia|]. apply net_readn_short. lia.
Qed.

(** ** Reserved bits *)

Lemma reserved_mask : Z.lor (Z.lor FRAME_RSV1 FRAME_RSV2) FRAME_RSV3 = 0x70.
Proof. reflexivity. Qed.

Lemma reserved_bits_land (b : byte) :
  Z.testbit (byte.unsigned b) 4 || Z.testbit (byte.unsigned b) 5
    || Z.testbit (byte.unsigned b) 6 = negb (Z.land (byte.unsigned b) 0x70 =? 0).
Proof. destruct b; reflexivity. Qed.

(** C6: whenever one of bits 4, 5, 6 of the first header byte is set,
    [websocket_read_frame_hdr] consumes the two base bytes, prints the
    reserved-field diagnostic and returns -1: no header comes back,
    whatever the other bits of the two bytes and whatever follows them. *)
Theorem read_frame_hdr_reserved_bits host w b0 b1 rest :
  rx (net (ws w)) = b0 :: b1 :: rest ->
  Z.testbit (byte.unsigned b0) 4 || Z.testbit (byte.unsigned b0) 5
    || Z.testbit (byte.unsigned b0) 6 = true ->
  websocket_read_frame_hdr host w
  = (Fail, log "RSVx reserved field, must be 0\n" (after_readn [b0; b1] rest w)).
Proof.
  intros Hrx Hbits. unfold websocket_read_frame_hdr.
  erewrite bind_ret
    by (apply onfail_ret; apply (net_readn_ok 2 w [b0; b1] rest); [exact Hrx | reflexivity]).
  rewrite reserved_mask. unfold at_; cbn [nth].
  rewrite <- reserved_bits_land, Hbits. apply throw_eq.
Qed.

Lemma read_frame_hdr_reserved_bits_witness :
  websocket_read_frame_hdr LittleEndian
    (init_world [] (bytes [0xc1; 0x05; 1; 2; 3; 4; 5]) 0)
  = (Fail, log "RSVx reserved field, must be 0\n"
             (after_readn (bytes [0xc1; 0x05]) (bytes [1; 2; 3; 4; 5])
                (init_world [] (bytes [0xc1; 0x05; 1; 2; 3; 4; 5]) 0))).
Proof.
  apply (read_frame_hdr_reserved_bits LittleEndian _ (byte.of_Z 0xc1) (byte.of_Z 0x05)
           (bytes [1; 2; 3; 4; 5])); reflexivity.
Defined.

(** ** Byte order *)

Lemma lor_high_low hi lo k :
  0 <= k -> 0 <= lo < 2 ^ k -> Z.lor (hi * 2 ^ k) lo = hi * 2 ^ k + lo.
Proof.
  intros Hk Hlo. apply Z.or_to_plus.
  rewrite <- (Z.mod_small lo (2 ^ k)) by lia.
  rewrite <- Z.shiftl_mul_pow2 by lia. rewrite <- Z.land_ones by lia.
  Z.bitblast. subst. rewrite (Z.testbit_neg_r hi) by lia. reflexivity.
Qed.

Lemma le_combine_cons b t : le_combine (b :: t) = byte.unsigned b + 256 * le_combine t.
Proof.
  change (le_combine (b :: t)) with (Z.lor (byte.unsigned b) (Z.shiftl (le_combine t) 8)).
  rewrite Z.or_to_plus.
  - rewrite Z.shiftl_mul_pow2 by lia. lia.
  - rewrite <- (byte.wrap_unsigned b). unfold byte.wrap.
    rewrite <- Z.land_ones by lia. Z.bitblast.
    subst. rewrite (Z.testbit_neg_r (le_combine t)) by lia. apply andb_false_r.
Qed.

Lemma le_combine_app_arith a b :
  le_combine (a ++ b) = le_combine a + 2 ^ (8 * Zlength a) * le_combine b.
Proof.
  induction a as [|x a IH]; cbn [app].
  - change (le_combine []) with 0. change (Zlength (@nil byte)) with 0.
    rewrite Z.mul_0_r, Z.pow_0_r. lia.
  - rewrite !le_combine_cons, IH, Zlength_cons.
    replace (8 * (1 + Zlength a)) with (8 + 8 * Zlength a) by lia.
    rewrite Z.pow_add_r by (pose proof (Zlength_nonneg a); lia). lia.
Qed.

Lemma le_combine_range bs : 0 <= le_combine bs < 2 ^ (8 * Zlength bs).
Proof. apply le_combine_bound. Qed.

Lemma be_combine_range bs : 0 <= be_combine bs < 2 ^ (8 * Zlength bs).
Proof.
  unfold be_combine. pose proof (le_combine_range (rev bs)) as H.
  unfold Zlength in *. rewrite length_rev in H. exact H.
Qed.

Lemma be_combine_app a b :
  be_combine (a ++ b) = be_combine a * 2 ^ (8 * Zlength b) + be_combine b.
Proof.
  unfold be_combine. rewrite rev_app_distr, le_combine_app_arith.
  unfold Zlength. rewrite length_rev. lia.
Qed.

Lemma be_combine_1 a : be_combine [a] = byte.unsigned a.
Proof. unfold be_combine; cbn [rev app]. apply le_combine_1. Qed.

Lemma be_combine_snoc a b : be_combine (a ++ [b]) = be_combine a * 256 + byte.unsigned b.
Proof. rewrite be_combine_app, be_combine_1. reflexivity. Qed.

Lemma length_be_split n v : length (be_split n v) = n.
Proof. unfold be_split. rewrite length_rev. apply length_le_split. Qed.

Lemma be_combine_split n v : be_combine (be_split n v) = v mod 2 ^ (Z.of_nat n * 8).
Proof. unfold be_combine, be_split. rewrite rev_involutive. apply le_combine_split. Qed.

Lemma be_split_combine bs n : length bs = n -> be_split n (be_combine bs) = bs.
Proof.
  intros H. unfold be_split, be_combine.
  rewrite split_le_combine' by (rewrite length_rev; exact H). apply rev_involutive.
Qed.

Section HostLemmas.
Variable host : byte_order.

Lemma length_store n v : length (store host n v) = n.
Proof. destruct host; [apply length_le_split | apply length_be_split]. Qed.

Lemma store_load bs n : length bs = n -> store host n (load host bs) = bs.
Proof.
  intros H. destruct host; cbn [store load].
  - apply split_le_combine'; exact H.
  - apply be_split_combine; exact H.
Qed.

Lemma load_store n v : load host (store host n v) = v mod 2 ^ (Z.of_nat n * 8).
Proof. destruct host; [apply le_combine_split | apply be_combine_split]. Qed.

(** Reading a 16-bit field through the cast and [ntohs] yields the
    big-endian value of the two bytes on either kind of host. *)
Lemma ntohs_load bs : length bs = 2%nat -> ntohs host (load host bs) = be_combine bs.
Proof. intros H. unfold ntohs. rewrite store_load by exact H. reflexivity. Qed.

Lemma ntohl_load bs : length bs = 4%nat -> ntohl host (load host bs) = be_combine bs.
Proof. intros H. unfold ntohl. rewrite store_load by exact H. reflexivity. Qed.

(** Storing [htons v] or [htonl v] through the cast leaves the bytes of
    [v], most significant first, on either kind of host. *)
Lemma store_htons v : store host 2 (htons host v) = be_split 2 v.
Proof. unfold htons. apply store_load, length_be_split. Qed.

Lemma store_htonl v : store host 4 (htonl host v) = be_split 4 v.
Proof. unfold htonl. apply store_load, length_be_split. Qed.

End HostLemmas.

(** The 64-bit length expression of [websocket_read_frame_hdr], on a
    little-endian host, is the big-endian value of the eight bytes. *)
Lemma len64_little_endian (a b : list byte) :
  length a = 4%nat -> length b = 4%nat ->
  Z.lor (uint64_t (Z.shiftl (ntohl LittleEndian
                               (Z.land (load LittleEndian (a ++ b)) 0xffffffff)) 32))
        (ntohl LittleEndian (uint32_t (Z.shiftr (load LittleEndian (a ++ b)) 32)))
  = be_combine (a ++ b).
Proof.
  intros Ha Hb. cbn [load].
  pose proof (le_combine_range a) as Ra. pose proof (le_combine_range b) as Rb.
  pose proof (be_combine_range a) as Sa. pose proof (be_combine_range b) as Sb.
  unfold Zlength in *. rewrite Ha in *. rewrite Hb in *.
  change (2 ^ (8 * Z.of_nat 4)) with (2 ^ 32) in *.
  rewrite le_combine_app_arith. unfold Zlength. rewrite Ha.
  change (2 ^ (8 * Z.of_nat 4)) with (2 ^ 32).
  change 0xffffffff with (Z.ones 32). rewrite Z.land_ones by lia.
  rewrite Z.shiftr_div_pow2 by lia.
  replace ((le_combine a + 2 ^ 32 * le_combine b) mod 2 ^ 32) with (le_combine a)
    by (rewrite Z.mul_comm, Z.mod_add, Z.mod_small by lia; reflexivity).
  replace ((le_combine a + 2 ^ 32 * le_combine b) / 2 ^ 32) with (le_combine b)
    by (rewrite Z.mul_comm, Z.div_add, Z.div_small by lia; reflexivity).
  unfold uint32_t. rewrite (Z.mod_small (le_combine b)) by lia.
  change (le_combine a) with (load LittleEndian a).
  change (le_combine b) with (load LittleEndian b).
  rewrite !ntohl_load by assumption.
  rewrite Z.shiftl_mul_pow2 by lia. unfold uint64_t.
  rewrite Z.mod_small by lia.
  rewrite be_combine_app. unfold Zlength. rewrite Hb.
  change (2 ^ (8 * Z.of_nat 4)) with (2 ^ 32).
  apply lor_high_low; lia.
Qed.

(** On a big-endian host the same expression exchanges the two halves. *)
Lemma len64_big_endian (a b : list byte) :
  length a = 4%nat -> length b = 4%nat ->
  Z.lor (uint64_t (Z.shiftl (ntohl BigEndian
                               (Z.land (load BigEndian (a ++ b)) 0xffffffff)) 32))
        (ntohl BigEndian (uint32_t (Z.shiftr (load BigEndian (a ++ b)) 32)))
  = be_combine (b ++ a).
Proof.
  intros Ha Hb. cbn [load].
  pose proof (be_combine_range a) as Sa. pose proof (be_combine_range b) as Sb.
  unfold Zlength in *. rewrite Ha in *. rewrite Hb in *.
  change (2 ^ (8 * Z.of_nat 4)) with (2 ^ 32) in *.
  rewrite be_combine_app. unfold Zlength. rewrite Hb.
  change (2 ^ (8 * Z.of_nat 4)) with (2 ^ 32).
  change 0xffffffff with (Z.ones 32). rewrite Z.land_ones by lia.
  rewrite Z.shiftr_div_pow2 by lia.
  replace ((be_combine a * 2 ^ 32 + be_combine b) mod 2 ^ 32) with (be_combine b)
    by (rewrite Z.add_comm, Z.mod_add, Z.mod_small by lia; reflexivity).
  replace ((be_combine a * 2 ^ 32 + be_combine b) / 2 ^ 32) with (be_combine a)
    by (rewrite Z.add_comm, Z.div_add, Z.div_small by lia; lia).
  unfold uint32_t. rewrite (Z.mod_small (be_combine a)) by lia.
  change (be_combine a) with (load BigEndian a) at 1.
  change (be_combine b) with (load BigEndian b) at 1.
  rewrite !ntohl_load by assumption.
  rewrite Z.shiftl_mul_pow2 by lia. unfold uint64_t.
  rewrite Z.mod_small by lia.
  rewrite be_combine_app. unfold Zlength. rewrite Ha.
  change (2 ^ (8 * Z.of_nat 4)) with (2 ^ 32).
  apply lor_high_low; lia.
Qed.

(** ** Frame header decode: the payload length *)

Section Decode.
Variable host : byte_order.
Variables (w : world) (b0 b1 : byte) (rest : list byte).
Hypothesis Hrx : rx (net (ws w)) = b0 :: b1 :: rest.
Hypothesis Hrsv : Z.land (byte.unsigned b0) 0x70 = 0.

Let L := Z.land (byte.unsigned b1) 0x7f.
Let w1 := after_readn [b0; b1] rest w.

Lemma read_frame_hdr_base :
  websocket_read_frame_hdr host w
  = (len1 <-
       (if L =? 126 then
          buf <- net_readn 2 orelse "net_readn error\n" ;;
          ret (ntohs host (load host buf))
        else if L =? 127 then
          buf <- net_readn 8 orelse "net_readn error\n" ;;
          let hi := uint64_t (Z.shiftl (ntohl host (Z.land (load host buf) 0xffffffff)) 32) in
          ret (Z.lor hi (ntohl host (uint32_t (Z.shiftr (load host buf) 32))))
        else ret L) ;;
     ret (hdr_of b0 b1 len1)) w1.
Proof.
  unfold websocket_read_frame_hdr.
  erewrite bind_ret
    by (apply onfail_ret; apply (net_readn_ok 2 w [b0; b1] rest); [exact Hrx | reflexivity]).
  rewrite reserved_mask. unfold at_; cbn [nth]. rewrite Hrsv. reflexivity.
Qed.

Lemma read_frame_hdr_len7 :
  L <= 125 -> websocket_read_frame_hdr host w = (Ret (hdr_of b0 b1 L), w1).
Proof.
  intros HL. rewrite read_frame_hdr_base.
  destruct (Z.eqb_spec L 126); [lia|]. destruct (Z.eqb_spec L 127); [lia|]. reflexivity.
Qed.

Lemma read_frame_hdr_len16 e0 e1 rest' :
  L = 126 -> rest = e0 :: e1 :: rest' ->
  websocket_read_frame_hdr host w
  = (Ret (hdr_of b0 b1 (byte.unsigned e0 * 256 + byte.unsigned e1)),
     after_readn [e0; e1] rest' w1).
Proof.
  intros HL Hrest. rewrite read_frame_hdr_base, HL. cbn [Z.eqb Pos.eqb].
  erewrite bind_ret; [reflexivity|].
  erewrite bind_ret
    by (apply onfail_ret; apply (net_readn_ok 2 w1 [e0; e1] rest');
        [cbn; exact Hrest | reflexivity]).
  unfold ret. rewrite ntohs_load by reflexivity.
  change [e0; e1] with ([e0] ++ [e1]). rewrite be_combine_snoc, be_combine_1. reflexivity.
Qed.

End Decode.

Lemma be_combine_8 e0 e1 e2 e3 e4 e5 e6 e7 :
  be_combine [e0; e1; e2; e3; e4; e5; e6; e7]
  = ((((((byte.unsigned e0 * 256 + byte.unsigned e1) * 256 + byte.unsigned e2) * 256
        + byte.unsigned e3) * 256 + byte.unsigned e4) * 256 + byte.unsigned e5) * 256
      + byte.unsigned e6) * 256 + byte.unsigned e7.
Proof.
  change [e0; e1; e2; e3; e4; e5; e6; e7]
    with (((((((([e0] ++ [e1]) ++ [e2]) ++ [e3]) ++ [e4]) ++ [e5]) ++ [e6]) ++ [e7])).
  rewrite !be_combine_snoc, be_combine_1. reflexivity.
Qed.

Lemma read_frame_hdr_len64 host w b0 b1 rest e0 e1 e2 e3 e4 e5 e6 e7 rest' :
  rx (net (ws w)) = b0 :: b1 :: rest ->
  Z.land (byte.unsigned b0) 0x70 = 0 ->
  Z.land (byte.unsigned b1) 0x7f = 127 ->
  rest = e0 :: e1 :: e2 :: e3 :: e4 :: e5 :: e6 :: e7 :: rest' ->
  websocket_read_frame_hdr host w
  = (Ret (hdr_of b0 b1
            (match host with
             | LittleEndian => be_combine [e0; e1; e2; e3; e4; e5; e6; e7]
             | BigEndian => be_combine [e4; e5; e6; e7; e0; e1; e2; e3]
             end)),
     after_readn [e0; e1; e2; e3; e4; e5; e6; e7] rest' (after_readn [b0; b1] rest w)).
Proof.
  intros Hrx Hrsv HL Hrest.
  rewrite (read_frame_hdr_base host w b0 b1 rest Hrx Hrsv), HL. cbn [Z.eqb Pos.eqb].
  erewrite bind_ret; [reflexivity|].
  erewrite bind_ret
    by (apply onfail_ret;
        apply (net_readn_ok 8 _ [e0; e1; e2; e3; e4; e5; e6; e7] rest');
        [cbn; exact Hrest | reflexivity]).
  unfold ret. f_equal. f_equal.
  change [e0; e1; e2; e3; e4; e5; e6; e7] with ([e0; e1; e2; e3] ++ [e4; e5; e6; e7]).
  destruct host.
  - apply len64_little_endian; reflexivity.
  - apply (len64_big_endian [e0; e1; e2; e3] [e4; e5; e6; e7]); reflexivity.
Qed.

(** Where the decode does follow RFC 6455: the payload length of a
    decoded header is fixed by [L], the low seven bits of the second
    byte.  [L <= 125]: the length is [L] and nothing more is read.
    [L = 126]: two more bytes are read and the length is their
    big-endian 16-bit value, on either host.  [L = 127]: eight more
    bytes are read and, on a little-endian host, the length is their
    big-endian 64-bit value. *)
Theorem read_frame_hdr_payload_length host w b0 b1 rest :
  rx (net (ws w)) = b0 :: b1 :: rest ->
  Z.land (byte.unsigned b0) 0x70 = 0 ->
  let L := Z.land (byte.unsigned b1) 0x7f in
  let w1 := after_readn [b0; b1] rest w in
  (L <= 125 ->
   exists hdr, websocket_read_frame_hdr host w = (Ret hdr, w1) /\ len hdr = L)
  /\ (L = 126 -> forall e0 e1 rest', rest = e0 :: e1 :: rest' ->
      exists hdr,
        websocket_read_frame_hdr host w = (Ret hdr, after_readn [e0; e1] rest' w1)
        /\ len hdr = byte.unsigned e0 * 256 + byte.unsigned e1)
  /\ (L = 127 -> host = LittleEndian ->
      forall e0 e1 e2 e3 e4 e5 e6 e7 rest',
        rest = e0 :: e1 :: e2 :: e3 :: e4 :: e5 :: e6 :: e7 :: rest' ->
        exists hdr,
          websocket_read_frame_hdr host w
          = (Ret hdr, after_readn [e0; e1; e2; e3; e4; e5; e6; e7] rest' w1)
          /\ len hdr
             = ((((((byte.unsigned e0 * 256 + byte.unsigned e1) * 256
                    + byte.unsigned e2) * 256 + byte.unsigned e3) * 256
                  + byte.unsigned e4) * 256 + byte.unsigned e5) * 256
                + byte.unsigned e6) * 256 + byte.unsigned e7).
Proof.
  intros Hrx Hrsv L w1. repeat split.
  - intros HL. eexists. split; [apply read_frame_hdr_len7; eassumption|reflexivity].
  - intros HL e0 e1 rest' Hrest. eexists.
    split; [apply read_frame_hdr_len16; eassumption|reflexivity].
  - intros HL Hhost e0 e1 e2 e3 e4 e5 e6 e7 rest' Hrest. subst host. eexists.
    split; [eapply read_frame_hdr_len64; eassumption|].
    cbn [len hdr_of]. apply be_combine_8.
Qed.

(** A 64-bit length of 2^32 + 5 on a little-endian host. *)
Lemma read_frame_hdr_payload_length_witness :
  exists hdr,
    websocket_read_frame_hdr LittleEndian
      (init_world [] (bytes [0x82; 0x7f; 0; 0; 0; 1; 0; 0; 0; 5; 9]) 0)
    = (Ret hdr,
       after_readn (bytes [0; 0; 0; 1; 0; 0; 0; 5]) (bytes [9])
         (after_readn (bytes [0x82; 0x7f]) (bytes [0; 0; 0; 1; 0; 0; 0; 5; 9])
            (init_world [] (bytes [0x82; 0x7f; 0; 0; 0; 1; 0; 0; 0; 5; 9]) 0)))
    /\ len hdr = 4294967301.
Proof.
  apply (proj2 (proj2 (read_frame_hdr_payload_length LittleEndian
           (init_world [] (bytes [0x82; 0x7f; 0; 0; 0; 1; 0; 0; 0; 5; 9]) 0)
           (byte.of_Z 0x82) (byte.of_Z 0x7f) (bytes [0; 0; 0; 1; 0; 0; 0; 5; 9])
           eq_refl eq_refl)) eq_refl eq_refl
           (byte.of_Z 0) (byte.of_Z 0) (byte.of_Z 0) (byte.of_Z 1)
           (byte.of_Z 0) (byte.of_Z 0) (byte.of_Z 0) (byte.of_Z 5) (bytes [9]) eq_refl).
Defined.

(** The same eight bytes on a big-endian host decode to 5 * 2^32 + 1. *)
Example read_frame_hdr_len64_big_endian_host :
  fst (websocket_read_frame_hdr BigEndian
         (init_world [] (bytes [0x82; 0x7f; 0; 0; 0; 1; 0; 0; 0; 5; 9]) 0))
  = Ret (mk_frame_hdr 128 2 0 21474836481).
Proof. vm_compute. reflexivity. Qed.

(** C4 (at a failing input): the header 82 7f 00 00 00 00 00 01 00 00
    of a binary frame announces 65536 bytes: that is the big-endian
    value of its eight length bytes, and what a little-endian host
    decodes.  On a big-endian host [websocket_read_frame_hdr] applies
    [ntohl], there the identity, to the low half of the 64-bit word and
    shifts it up, and decodes the two 32-bit halves exchanged:
    65536 * 2^32.  The 16-bit form, which goes through [ntohs] alone, is
    decoded rightly on the same host. *)
Theorem read_frame_hdr_len64_exchanges_halves :
  let ext := bytes [0; 0; 0; 0; 0; 1; 0; 0] in
  let w := init_world [] (bytes [0x82; 0x7f] ++ ext) 0 in
  be_combine ext = 65536
  /\ fst (websocket_read_frame_hdr LittleEndian w) = Ret (mk_frame_hdr 128 2 0 65536)
  /\ fst (websocket_read_frame_hdr BigEndian w) = Ret (mk_frame_hdr 128 2 0 (65536 * 2 ^ 32))
  /\ fst (websocket_read_frame_hdr BigEndian
            (init_world [] (bytes [0x82; 0x7e; 0x01; 0x00]) 0))
     = Ret (mk_frame_hdr 128 2 0 256).
Proof. vm_compute. repeat split. Qed.

(** ** The remaining counter *)


Lemma skip_loop_S fuel w :
  skip_loop (S fuel) w
  = if 0 <? remaining (ws w) then
      (buf <- net_readn (if 1024 <? remaining (ws w) then 1024 else remaining (ws w))
                orelse "net_readn error\n" ;;
       put_remaining (uint64_t (remaining (ws w) - Zlength buf)) ;;;
       skip_loop fuel) w
    else (Ret tt, w).
Proof.
  cbn [skip_loop]. unfold bind at 1, get_remaining.
  destruct (0 <? remaining (ws w)); reflexivity.
Qed.

(** One more turn than [rx] has bytes is all the loop can take: more
    fuel changes nothing. *)
Lemma skip_loop_fuel fuel : forall w fuel',
  (length (rx (net (ws w))) < fuel)%nat -> (fuel <= fuel')%nat ->
  skip_loop fuel' w = skip_loop fuel w.
Proof.
  induction fuel as [|fuel IH]; intros w fuel' Hlen Hle; [lia|].
  destruct fuel' as [|fuel']; [lia|].
  rewrite !skip_loop_S.
  destruct (Z.ltb_spec 0 (remaining (ws w))) as [Hpos|Hzero]; [|reflexivity].
  set (n := if 1024 <? remaining (ws w) then 1024 else remaining (ws w)).
  assert (Hn : 0 < n) by (subst n; destruct (Z.ltb_spec 1024 (remaining (ws w))); lia).
  destruct (net_readn_cases n w) as [(data & rest & Hrx & Hdata & Hrun)|[Hshort Hrun]]; [lia| |].
  - pose proof (onfail_ret _ "net_readn error\n" _ _ _ Hrun) as Hrun'.
    fold n. rewrite (bind_ret _ _ _ _ _ Hrun'). rewrite (bind_ret _ _ _ _ _ Hrun').
    unfold bind, put_remaining. apply IH; [|lia].
    cbn. rewrite Hrx, length_app in Hlen. unfold Zlength in Hdata. lia.
  - pose proof (onfail_fail _ "net_readn error\n" _ _ Hrun) as Hrun'.
    fold n. rewrite (bind_fail _ _ _ _ Hrun'). rewrite (bind_fail _ _ _ _ Hrun').
    reflexivity.
Qed.


(** *** Invariants of the calls *)

Lemma keeps_ret {A} r0 (phi : A -> Prop) a : phi a -> hoare (at_r r0) (ret a) (keeps r0 phi).
Proof. intros H w Hw. split; [exact Hw | exact H]. Qed.

Lemma keeps_throw {A} r0 (phi : A -> Prop) msg : hoare (at_r r0) (throw msg) (keeps r0 phi).
Proof. intros w Hw. split; [exact Hw | exact I]. Qed.

Lemma keeps_bind {A B} r0 (c : M A) (k : A -> M B) (phi : A -> Prop) (psi : B -> Prop) :
  hoare (at_r r0) c (keeps r0 phi) ->
  (forall a, phi a -> hoare (at_r r0) (k a) (keeps r0 psi)) ->
  hoare (at_r r0) (bind c k) (keeps r0 psi).
Proof.
  intros Hc Hk w Hw. destruct (Hc w Hw) as [Hr Hphi]. unfold bind.
  destruct (c w) as [[a|] w']; cbn in *; [apply (Hk a Hphi w' Hr) | split; [exact Hr | exact I]].
Qed.

Lemma keeps_onfail {A} r0 (c : M A) msg (phi : A -> Prop) :
  hoare (at_r r0) c (keeps r0 phi) -> hoare (at_r r0) (onfail c msg) (keeps r0 phi).
Proof.
  intros Hc w Hw. destruct (Hc w Hw) as [Hr Hphi]. unfold onfail.
  destruct (c w) as [[a|] w']; cbn in *; split; auto.
Qed.

(** [net_readn] leaves the counter alone and, when it succeeds, returns
    exactly the number of bytes asked for. *)
Lemma keeps_net_readn n r0 :
  0 <= n -> hoare (at_r r0) (net_readn n) (keeps r0 (fun buf => Zlength buf = n)).
Proof.
  intros Hn w Hw.
  destruct (net_readn_cases n w Hn) as [(data & rest & _ & Hlen & ->)|[_ ->]];
    split; cbn; auto.
Qed.

Lemma lor_range64 a b : 0 <= a < 2 ^ 64 -> 0 <= b < 2 ^ 64 -> 0 <= Z.lor a b < 2 ^ 64.
Proof.
  intros Ha Hb. split; [apply Z.lor_nonneg; lia|].
  destruct (Z.eq_dec (Z.lor a b) 0) as [->|Hne]; [lia|].
  assert (Hpos : 0 < Z.lor a b) by (pose proof (proj2 (Z.lor_nonneg a b)); lia).
  apply Z.log2_lt_pow2; [exact Hpos|].
  rewrite Z.log2_lor by lia.
  assert (La : Z.log2 a < 64).
  { destruct (Z.eq_dec a 0) as [->|]; [cbn; lia|]. apply Z.log2_lt_pow2; lia. }
  assert (Lb : Z.log2 b < 64).
  { destruct (Z.eq_dec b 0) as [->|]; [cbn; lia|]. apply Z.log2_lt_pow2; lia. }
  lia.
Qed.

Lemma ntohs_range host v : 0 <= ntohs host v < 2 ^ 16.
Proof.
  unfold ntohs. pose proof (be_combine_range (store host 2 v)) as H.
  unfold Zlength in H. rewrite length_store in H. exact H.
Qed.

Lemma ntohl_range host v : 0 <= ntohl host v < 2 ^ 32.
Proof.
  unfold ntohl. pose proof (be_combine_range (store host 4 v)) as H.
  unfold Zlength in H. rewrite length_store in H. exact H.
Qed.

Lemma land_7f_range x : 0 <= Z.land x 0x7f <= 127.
Proof.
  change (Z.land x 0x7f) with (Z.land x (Z.ones 7)). rewrite Z.land_ones by lia.
  pose proof (Z.mod_pos_bound x (2 ^ 7) eq_refl). change (2 ^ 7) with 128 in *. lia.
Qed.

(** Header decode never touches the counter, and a decoded length is a
    [uint64_t] value. *)
Lemma hoare_read_frame_hdr host r0 :
  hoare (at_r r0) (websocket_read_frame_hdr host)
        (keeps r0 (fun hdr => 0 <= len hdr < 2 ^ 64)).
Proof.
  unfold websocket_read_frame_hdr.
  eapply keeps_bind; [apply keeps_onfail, (keeps_net_readn 2); lia|].
  intros buf _. cbv beta zeta.
  destruct (negb _); [apply keeps_throw|].
  apply keeps_bind with (phi := fun l => 0 <= l < 2 ^ 64).
  - pose proof (land_7f_range buf.[1]) as HL.
    destruct (_ =? 126); [|destruct (_ =? 127)].
    + eapply keeps_bind; [apply keeps_onfail, (keeps_net_readn 2); lia|].
      intros b _. apply keeps_ret.
      pose proof (ntohs_range host (load host b)). lia.
    + eapply keeps_bind; [apply keeps_onfail, (keeps_net_readn 8); lia|].
      intros b _. apply keeps_ret. apply lor_range64.
      * unfold uint64_t. apply Z.mod_pos_bound. reflexivity.
      * pose proof (ntohl_range host (uint32_t (Z.shiftr (load host b) 32))). lia.
    + apply keeps_ret. lia.
  - intros l Hl. apply keeps_ret. exact Hl.
Qed.

Lemma read_frame_hdr_keeps host w r w' :
  websocket_read_frame_hdr host w = (r, w') ->
  remaining (ws w') = remaining (ws w)
  /\ match r with Ret hdr => 0 <= len hdr < 2 ^ 64 | Fail => True end.
Proof.
  intros H. pose proof (hoare_read_frame_hdr host (remaining (ws w)) w eq_refl) as Hh.
  rewrite H in Hh. exact Hh.
Qed.


(** ** Receive *)

Lemma websocket_recv_phases host n w :
  websocket_recv host n w
  = match skip_unread w with
    | (Ret _, w1) => recv_frame host n w1
    | (Fail, w1) => (Fail, w1)
    end.
Proof.
  unfold websocket_recv, skip_unread. unfold bind at 1, get_remaining.
  destruct (0 <? remaining (ws w)); [|reflexivity].
  unfold bind at 1. destruct (onfail _ _ w) as [[[]|] w1]; reflexivity.
Qed.

Lemma skip_unread_run w w1 :
  (if 0 <? remaining (ws w) then websocket_skip_remaining w else (Ret tt, w)) = (Ret tt, w1) ->
  skip_unread w = (Ret tt, w1).
Proof.
  unfold skip_unread. destruct (0 <? remaining (ws w)); [|trivial].
  intros H. apply onfail_ret, H.
Qed.

(** C7: when the header just decoded has [fin == 0], [websocket_recv]
    prints the continuation-frame diagnostic and returns -1 right after
    the header: whatever the opcode, the mask bit and the length, no
    mask key and no payload byte is read and the counter is left as the
    drain left it. *)
Theorem recv_rejects_fin0 host n w w1 hdr w2 :
  (if 0 <? remaining (ws w) then websocket_skip_remaining w else (Ret tt, w)) = (Ret tt, w1) ->
  websocket_read_frame_hdr host w1 = (Ret hdr, w2) ->
  fin hdr = 0 ->
  websocket_recv host n w = (Fail, log "no support continuation frame\n" w2).
Proof.
  intros Hskip Hhdr Hfin.
  rewrite websocket_recv_phases, (skip_unread_run _ _ Hskip).
  unfold recv_frame. rewrite (bind_ret _ _ _ _ _ (onfail_ret _ _ _ _ _ Hhdr)).
  rewrite Hfin. reflexivity.
Qed.

(** A binary frame of length 5 with the FIN bit clear. *)
Lemma recv_rejects_fin0_witness :
  websocket_recv LittleEndian 16 (init_world [] (bytes [0x02; 0x05; 1; 2; 3; 4; 5]) 0)
  = (Fail, log "no support continuation frame\n"
             (after_readn (bytes [0x02; 0x05]) (bytes [1; 2; 3; 4; 5])
                (init_world [] (bytes [0x02; 0x05; 1; 2; 3; 4; 5]) 0))).
Proof.
  apply (recv_rejects_fin0 LittleEndian 16 _
           (init_world [] (bytes [0x02; 0x05; 1; 2; 3; 4; 5]) 0)
           (mk_frame_hdr 0 2 0 5)); reflexivity.
Defined.

(** The FIN field of a decoded header is bit 7 of the first byte. *)
Lemma fin_hdr_of b0 b1 l :
  (fin (hdr_of b0 b1 l) =? 0) = negb (Z.testbit (byte.unsigned b0) 7).
Proof. destruct b0; reflexivity. Qed.

(** What a successful [websocket_recv] hands over: the opcode of the
    header and, after the mask key if there is one, the next
    [min(n, len)] bytes of the stream as they are. *)
Lemma websocket_recv_delivers host n w w1 hdr w2 key data rest :
  0 <= n ->
  Z.min n (len hdr) <= INT_MAX ->
  (if 0 <? remaining (ws w) then websocket_skip_remaining w else (Ret tt, w)) = (Ret tt, w1) ->
  websocket_read_frame_hdr host w1 = (Ret hdr, w2) ->
  fin hdr <> 0 ->
  rx (net (ws w2)) = key ++ data ++ rest ->
  Zlength key = (if mask hdr =? 0 then 0 else 4) ->
  Zlength data = Z.min n (len hdr) ->
  websocket_recv host n w
  = (Ret (Zlength data, opcode hdr, data),
     set_remaining (len hdr - Zlength data)
       (after_readn data rest
          (if mask hdr =? 0 then set_remaining (len hdr) (set_type (opcode hdr) w2)
           else after_readn key (data ++ rest)
                  (set_remaining (len hdr) (set_type (opcode hdr) w2))))).
Proof.
  intros Hn Hint Hskip Hhdr Hfin Hrx Hkey Hdata.
  assert (Hret : int_t (Zlength data) = Zlength data)
    by (apply int_t_small; pose proof (Zlength_nonneg data); lia).
  assert (Hne : (Zlength data =? -1) = false)
    by (apply Z.eqb_neq; pose proof (Zlength_nonneg data); lia).
  destruct (read_frame_hdr_keeps _ _ _ _ Hhdr) as [_ Hlen].
  rewrite websocket_recv_phases, (skip_unread_run _ _ Hskip).
  unfold recv_frame. rewrite (bind_ret _ _ _ _ _ (onfail_ret _ _ _ _ _ Hhdr)).
  destruct (Z.eqb_spec (fin hdr) 0) as [|_]; [contradiction|].
  unfold bind at 1, put_type. unfold bind at 1, put_remaining.
  set (w3 := set_remaining (len hdr) (set_type (opcode hdr) w2)).
  assert (Hmin : (if len hdr <? n then len hdr else n) = Z.min n (len hdr))
    by (destruct (Z.ltb_spec (len hdr) n); lia).
  assert (Hfinal : uint64_t (len hdr - Zlength data) = len hdr - Zlength data)
    by (unfold uint64_t; apply Z.mod_small; lia).
  destruct (Z.eqb_spec (mask hdr) 0) as [Hm|Hm]; cbn [negb].
  - assert (key = []) as ->.
    { destruct key; [reflexivity|]. rewrite Zlength_cons in Hkey.
      pose proof (Zlength_nonneg key). lia. }
    unfold bind at 1, ret at 1. unfold bind at 1, get_remaining. cbn [remaining ws w3 set_remaining].
    rewrite Hmin.
    erewrite bind_ret
      by (apply onfail_ret; apply (net_readn_ok _ w3 data rest); [exact Hrx | exact Hdata]).
    cbv zeta. rewrite Hret, Hne.
    unfold bind, put_remaining, ret. rewrite Hfinal. reflexivity.
  - erewrite bind_ret.
    2:{ erewrite bind_ret; [reflexivity|].
        apply onfail_ret. apply (net_readn_ok 4 w3 key (data ++ rest)); [exact Hrx | exact Hkey]. }
    unfold ret at 1. unfold bind at 1, get_remaining.
    cbn [remaining ws w3 set_remaining after_readn set_net].
    rewrite Hmin.
    erewrite bind_ret
      by (apply onfail_ret; apply (net_readn_ok _ _ data rest); [reflexivity | exact Hdata]).
    cbv zeta. rewrite Hret, Hne.
    unfold bind, put_remaining, ret. rewrite Hfinal. reflexivity.
Qed.









(** ** Random bytes *)

Lemma skipn_S_tl {A} n (l : list A) : skipn (S n) l = skipn n (tl l).
Proof. destruct l; [destruct n; reflexivity | reflexivity]. Qed.

Lemma for_each_xrand n : forall w,
  for_each n (x <- xrand ;; ret (byte.of_Z (uint8_t (x mod 0xff)))) w
  = (Ret (random_bytes n (xrand_src w)),
     mk_world (ws w) (skipn n (xrand_src w)) (stderr w) (recv_type w)).
Proof.
  induction n as [|n IH]; intros w.
  - destruct w; reflexivity.
  - cbn [for_each random_bytes]. unfold bind at 1. unfold bind at 1, xrand, ret at 1.
    unfold bind at 1. rewrite IH. cbn [xrand_src ws stderr]. unfold ret.
    rewrite skipn_S_tl. reflexivity.
Qed.

Lemma length_random_bytes n : forall src, length (random_bytes n src) = n.
Proof. induction n; intros src; cbn; [reflexivity | rewrite IHn; reflexivity]. Qed.

Lemma random_bytes_nth n : forall src,
  random_bytes n src = map (fun i => reduced (Z.of_N (nth i src 0%N))) (seq 0 n).
Proof.
  induction n as [|n IH]; intros src; [reflexivity|].
  cbn [random_bytes seq map]. rewrite IH, <- seq_shift, map_map.
  f_equal; [destruct src; reflexivity|].
  apply map_ext. intros i. destruct src; [destruct i; reflexivity | reflexivity].
Qed.

(** ** Send *)

Lemma length_mask_from key ptr : forall i, length (mask_from key i ptr) = length ptr.
Proof. induction ptr; intros i; cbn; [reflexivity | rewrite IHptr; reflexivity]. Qed.

Lemma nth_mask_from key ptr : forall i j,
  0 <= i -> (j < length ptr)%nat ->
  nth j (mask_from key i ptr) Byte.x00
  = byte.xor (nth j ptr Byte.x00) (nth (Z.to_nat ((i + Z.of_nat j) mod 4)) key Byte.x00).
Proof.
  induction ptr as [|b ptr IH]; intros i j Hi Hj; cbn [length] in Hj; [lia|].
  destruct j as [|j]; cbn [mask_from nth].
  - rewrite Z.add_0_r. reflexivity.
  - rewrite IH by lia.
    replace (i + 1 + Z.of_nat j) with (i + Z.of_nat (S j)) by lia. reflexivity.
Qed.

Lemma after_writes_nil w : after_writes [] w = w.
Proof.
  destruct w as [[[rx0 rd0 tx0 cr0] rem0] src0 err0 ty0].
  unfold after_writes, set_net; cbn. rewrite app_nil_r, Nat.sub_0_r. reflexivity.
Qed.

Lemma net_write_ok data w :
  (0 < tx_credit (net (ws w)))%nat ->
  net_write data w = (Ret (Zlength data), after_writes [data] w).
Proof.
  intros H. unfold net_write, after_writes, set_net.
  destruct (tx_credit (net (ws w))) as [|c]; [lia|].
  cbn [length]. rewrite Nat.sub_succ, Nat.sub_0_r. reflexivity.
Qed.

Lemma after_writes_cons c chunks w :
  (0 < tx_credit (net (ws w)))%nat ->
  after_writes chunks (after_writes [c] w) = after_writes (c :: chunks) w.
Proof.
  intros H. unfold after_writes, set_net; cbn.
  rewrite <- app_assoc. do 3 f_equal. lia.
Qed.

Lemma chunk'_sizes {A} (k : nat) (bs : list A) : forall ck,
  (0 < k)%nat -> (length ck < k)%nat ->
  Forall (fun c => (0 < length c <= k)%nat) (List.chunk' k bs ck).
Proof.
  induction bs as [|b bs IH]; intros ck Hk Hck; cbn [List.chunk'].
  - destruct ck; constructor; [cbn [length] in *; lia | constructor].
  - cbv zeta. assert (Hl : length (ck ++ [b]) = S (length ck))
      by (rewrite length_app; cbn; lia).
    destruct (Nat.ltb_spec (length (ck ++ [b])) k).
    + apply IH; assumption.
    + constructor; [lia | apply IH; cbn; lia].
Qed.

Lemma chunk'_flush {A} (k : nat) (ck : list A) : ck <> [] -> List.chunk' k [] ck = [ck].
Proof. destruct ck; [congruence | reflexivity]. Qed.

(** The payload loop writes the masked bytes in the chunks [List.chunk']
    cuts them into. *)
Lemma send_payload_chunks n key ptr : forall i payload nwrite w,
  n = i + Zlength ptr ->
  (length payload < 2048)%nat ->
  (ptr = [] -> payload = []) ->
  (length (List.chunk' 2048 (mask_from key i ptr) payload) <= tx_credit (net (ws w)))%nat ->
  int_t nwrite = nwrite ->
  send_payload n key ptr i payload nwrite w
  = (Ret (int_t (nwrite + Zlength payload + Zlength ptr)),
     after_writes (List.chunk' 2048 (mask_from key i ptr) payload) w).
Proof.
  induction ptr as [|b ptr IH]; intros i payload nwrite w Hn Hlen Hnil Hcredit Hint.
  - rewrite (Hnil eq_refl). cbn [send_payload mask_from List.chunk'].
    rewrite after_writes_nil. unfold ret. do 2 f_equal.
    change (Zlength (@nil byte)) with 0. rewrite !Z.add_0_r. symmetry. exact Hint.
  - cbn [send_payload mask_from List.chunk'] in *. cbv zeta in *.
    set (x := byte.xor b (nth (Z.to_nat (i mod 4)) key Byte.x00)) in *.
    assert (Hl : length (payload ++ [x]) = S (length payload))
      by (rewrite length_app; cbn; lia).
    rewrite Zlength_cons in Hn.
    assert (HZ : Zlength (payload ++ [x]) = Zlength payload + 1)
      by (unfold Zlength; rewrite Hl; lia).
    destruct (Nat.ltb_spec (length (payload ++ [x])) 2048) as [Hsmall|Hfull].
    + assert (Hz : (Zlength (payload ++ [x]) <? 2048) = true)
        by (apply Z.ltb_lt; unfold Zlength; lia).
      rewrite Hz. cbn [andb].
      destruct ptr as [|b' ptr'].
      * (* last byte: the partly filled buffer is flushed *)
        assert (Hi : (i + 1 <? n) = false)
          by (apply Z.ltb_ge; unfold Zlength in Hn; cbn in Hn; lia).
        rewrite Hi. cbn [mask_from] in *.
        rewrite chunk'_flush in * by (intros E; rewrite E in Hl; discriminate).
        cbn [length] in Hcredit.
        erewrite bind_ret by (apply onfail_ret, net_write_ok; lia).
        cbn [send_payload]. unfold ret. f_equal. f_equal. f_equal.
        rewrite HZ, Zlength_cons. unfold Zlength at 3. cbn. lia.
      * assert (Hi : (i + 1 <? n) = true)
          by (apply Z.ltb_lt; rewrite !Zlength_cons in Hn;
              pose proof (Zlength_nonneg ptr'); lia).
        rewrite Hi. rewrite IH; [|lia|exact Hsmall|discriminate|exact Hcredit|exact Hint].
        f_equal. f_equal. f_equal. rewrite HZ, (Zlength_cons b). lia.
    + assert (Hz : (Zlength (payload ++ [x]) <? 2048) = false)
        by (apply Z.ltb_ge; unfold Zlength; lia).
      rewrite Hz. cbn [andb]. cbn [length] in Hcredit.
      erewrite bind_ret by (apply onfail_ret, net_write_ok; lia).
      rewrite IH;
        [|lia|cbn; lia|reflexivity|cbn; lia
         |apply int_t_idem].
      rewrite after_writes_cons by lia.
      f_equal. f_equal. change (Zlength (@nil byte)) with 0.
      rewrite Z.add_0_r, int_t_add_l, HZ, (Zlength_cons b). f_equal. lia.
Qed.

Lemma websocket_send_run host type buf w :
  websocket_send host type buf w
  = (net_write (base_header host type (Zlength buf) ++ random_bytes 4 (xrand_src w))
       orelse "net_write error\n" ;;;
     send_payload (Zlength buf) (random_bytes 4 (xrand_src w)) buf 0 [] 0)
      (after_xrand 4 w).
Proof.
  unfold websocket_send. cbv zeta. unfold bind at 1. rewrite for_each_xrand. reflexivity.
Qed.

(** Whatever becomes of the payload loop, it only appends to [tx]. *)
Lemma send_payload_tx n key ptr : forall i payload nwrite w,
  exists more, tx (net (ws (snd (send_payload n key ptr i payload nwrite w))))
               = tx (net (ws w)) ++ more.
Proof.
  induction ptr as [|b ptr IH]; intros i payload nwrite w; cbn [send_payload].
  - exists []. rewrite app_nil_r. reflexivity.
  - cbv zeta. destruct (_ && _); [apply IH|].
    unfold bind, onfail, net_write.
    destruct (tx_credit (net (ws w))) as [|c].
    + exists []. rewrite app_nil_r. reflexivity.
    + match goal with
      | |- context [send_payload n key ptr ?i' ?p' ?nw' ?w'] =>
          destruct (IH i' p' nw' w') as [more Hmore]; rewrite Hmore
      end.
      cbn. rewrite <- app_assoc. eexists. reflexivity.
Qed.



Lemma nat_mod4 i : Z.to_nat (Z.of_nat i mod 4) = (i mod 4)%nat.
Proof. change 4 with (Z.of_nat 4). rewrite <- Nat2Z.inj_mod. apply Nat2Z.id. Qed.

(** With enough write credit the whole frame goes out: the header in one
    call, then the chunks of the masked payload. *)
Lemma websocket_send_ok host type buf w :
  (length (List.chunk 2048 (mask_from (random_bytes 4 (xrand_src w)) 0 buf))
   < tx_credit (net (ws w)))%nat ->
  websocket_send host type buf w
  = (Ret (int_t (Zlength buf)),
     after_writes ((base_header host type (Zlength buf) ++ random_bytes 4 (xrand_src w))
                     :: List.chunk 2048 (mask_from (random_bytes 4 (xrand_src w)) 0 buf))
       (after_xrand 4 w)).
Proof.
  intros Hcredit. rewrite websocket_send_run.
  erewrite bind_ret by (apply onfail_ret, net_write_ok; cbn; lia).
  rewrite send_payload_chunks; [|lia|cbn; lia|reflexivity| |reflexivity].
  - rewrite after_writes_cons by (cbn; lia). reflexivity.
  - fold (List.chunk 2048 (mask_from (random_bytes 4 (xrand_src w)) 0 buf)).
    cbn [tx_credit net ws after_writes after_xrand set_net length]. lia.
Qed.

(** C9: with the link accepting every write, [websocket_send] makes one
    [net_write] call for the whole header (base header, then the mask
    key) and after it one call per chunk of the masked payload.  Every
    chunk holds between 1 and 2048 bytes, the chunks together have the
    length of the payload, and their byte at absolute position [i] is
    the input byte XORed with [mask_key[i % 4]].  The call does not end
    on an error path, and the [int] it returns is the payload length
    whenever that fits an [int]. *)
Theorem send_masks_in_chunks host type buf w :
  let key := random_bytes 4 (xrand_src w) in
  let header := base_header host type (Zlength buf) ++ key in
  let chunks := List.chunk 2048 (mask_from key 0 buf) in
  (length chunks < tx_credit (net (ws w)))%nat ->
  (exists nwrite,
      websocket_send host type buf w
      = (Ret nwrite, after_writes (header :: chunks) (after_xrand 4 w))
      /\ (Zlength buf <= INT_MAX -> nwrite = Zlength buf))
  /\ tx (net (ws (snd (websocket_send host type buf w))))
     = tx (net (ws w)) ++ header :: chunks
  /\ Forall (fun c => (0 < length c <= 2048)%nat) chunks
  /\ length (concat chunks) = length buf
  /\ forall i, (i < length buf)%nat ->
       nth i (concat chunks) Byte.x00
       = byte.xor (nth i buf Byte.x00) (nth (i mod 4) key Byte.x00).
Proof.
  intros key header chunks Hcredit.
  assert (Hrun : websocket_send host type buf w
                 = (Ret (int_t (Zlength buf)),
                    after_writes (header :: chunks) (after_xrand 4 w)))
    by (apply websocket_send_ok; exact Hcredit).
  split.
  { exists (int_t (Zlength buf)). split; [exact Hrun|].
    intros Hfit. apply int_t_small. pose proof (Zlength_nonneg buf). lia. }
  split; [rewrite Hrun; reflexivity|].
  split; [apply chunk'_sizes; cbn; lia|].
  unfold chunks. rewrite List.concat_chunk.
  split; [apply length_mask_from|].
  intros i Hi. rewrite nth_mask_from by lia. rewrite Z.add_0_l, nat_mod4. reflexivity.
Qed.

(** "ABCDE" as a text frame, key 01 02 03 04. *)
Lemma send_masks_in_chunks_witness :
  websocket_send LittleEndian 1 (bytes [0x41; 0x42; 0x43; 0x44; 0x45])
    (init_world [1; 2; 3; 4]%N [] 2)
  = (Ret 5,
     mk_world (mk_ws (mk_net [] [] [bytes [0x81; 0x85; 1; 2; 3; 4];
                                    bytes [0x40; 0x40; 0x40; 0x40; 0x44]] 0) 0) [] [] None).
Proof.
  destruct (proj1 (send_masks_in_chunks LittleEndian 1 (bytes [0x41; 0x42; 0x43; 0x44; 0x45])
                     (init_world [1; 2; 3; 4]%N [] 2) ltac:(vm_compute; lia)))
    as (nwrite & Hrun & Hcount).
  rewrite Hrun, (Hcount ltac:(vm_compute; discriminate)). reflexivity.
Defined.

(** 2049 bytes go out as a chunk of 2048 and a chunk of 1, and the key
    index runs on across the boundary: byte 2048 is masked with
    [mask_key[0]]. *)
Example send_chunk_boundary :
  let w' := snd (websocket_send LittleEndian 2 (repeat Byte.x41 2049)
                   (init_world [1; 2; 3; 4]%N [] 3)) in
  map (@length byte) (tx (net (ws w'))) = [8; 2048; 1]%nat
  /\ nth 2 (tx (net (ws w'))) [] = [Byte.x40].
Proof. vm_compute. split; reflexivity. Qed.

(** ** The header [websocket_send] builds *)

Lemma be_split_2 v : be_split 2 v = [byte.of_Z (Z.shiftr v 8); byte.of_Z v].
Proof. reflexivity. Qed.

Lemma be_split_4 v :
  be_split 4 v = [byte.of_Z (Z.shiftr (Z.shiftr (Z.shiftr v 8) 8) 8);
                  byte.of_Z (Z.shiftr (Z.shiftr v 8) 8); byte.of_Z (Z.shiftr v 8);
                  byte.of_Z v].
Proof. reflexivity. Qed.

Lemma be_combine_2 e0 e1 : be_combine [e0; e1] = byte.unsigned e0 * 256 + byte.unsigned e1.
Proof. change [e0; e1] with ([e0] ++ [e1]). rewrite be_combine_snoc, be_combine_1. reflexivity. Qed.

Lemma be_combine_4 e0 e1 e2 e3 :
  be_combine [e0; e1; e2; e3]
  = ((byte.unsigned e0 * 256 + byte.unsigned e1) * 256 + byte.unsigned e2) * 256
    + byte.unsigned e3.
Proof.
  change [e0; e1; e2; e3] with ((([e0] ++ [e1]) ++ [e2]) ++ [e3]).
  rewrite !be_combine_snoc, be_combine_1. reflexivity.
Qed.

Lemma length_class_byte c :
  0 <= c <= 127 ->
  Z.land (byte.unsigned (byte.of_Z (Z.lor (Z.lor 0 FRAME_MASK) c))) 0x7f = c
  /\ Z.testbit (byte.unsigned (byte.of_Z (Z.lor (Z.lor 0 FRAME_MASK) c))) 7 = true.
Proof.
  intros Hc. change (Z.lor 0 FRAME_MASK) with (1 * 2 ^ 7).
  rewrite lor_high_low by lia. rewrite byte.unsigned_of_Z. unfold byte.wrap.
  rewrite Z.mod_small by lia. split.
  - change (Z.land (1 * 2 ^ 7 + c) 0x7f) with (Z.land (1 * 2 ^ 7 + c) (Z.ones 7)).
    rewrite Z.land_ones by lia. rewrite Z.add_comm, Z.mod_add by lia.
    apply Z.mod_small. lia.
  - rewrite Z.testbit_true by lia. rewrite Z.add_comm, Z.div_add by lia.
    rewrite Z.div_small by lia. reflexivity.
Qed.

Section BaseHeader.
Variable host : byte_order.
Variables type n : Z.
Hypothesis Hn : 0 <= n.

Let b0 := byte.of_Z (Z.lor (Z.lor 0 FRAME_FIN) (uint8_t type)).
Let b1 (c : Z) := byte.of_Z (Z.lor (Z.lor 0 FRAME_MASK) c).

Lemma base_header_7 : n <= 125 -> base_header host type n = [b0; b1 n].
Proof.
  intros H. unfold base_header. destruct (Z.leb_spec n 125); [reflexivity | lia].
Qed.

Lemma base_header_16 :
  126 <= n <= 0xffff ->
  base_header host type n = [b0; b1 126; byte.of_Z (Z.shiftr n 8); byte.of_Z n]
  /\ byte.unsigned (byte.of_Z (Z.shiftr n 8)) * 256 + byte.unsigned (byte.of_Z n) = n.
Proof.
  intros H. unfold base_header.
  destruct (Z.leb_spec n 125); [lia|]. destruct (Z.leb_spec n 0xffff); [|lia].
  assert (Hu : uint16_t n = n) by (unfold uint16_t; apply Z.mod_small; lia).
  rewrite store_htons, Hu, be_split_2. split; [reflexivity|].
  rewrite <- be_combine_2, <- be_split_2, be_combine_split.
  apply Z.mod_small. change (2 ^ (Z.of_nat 2 * 8)) with 65536. lia.
Qed.

Lemma base_header_64 :
  0xffff < n ->
  let m := n mod 2 ^ 32 in
  let e4 := byte.of_Z (Z.shiftr (Z.shiftr (Z.shiftr m 8) 8) 8) in
  let e5 := byte.of_Z (Z.shiftr (Z.shiftr m 8) 8) in
  let e6 := byte.of_Z (Z.shiftr m 8) in
  let e7 := byte.of_Z m in
  base_header host type n
  = [b0; b1 127; Byte.x00; Byte.x00; Byte.x00; Byte.x00; e4; e5; e6; e7]
  /\ be_combine [Byte.x00; Byte.x00; Byte.x00; Byte.x00; e4; e5; e6; e7] = m.
Proof.
  intros H m e4 e5 e6 e7. unfold base_header.
  destruct (Z.leb_spec n 125); [lia|]. destruct (Z.leb_spec n 0xffff); [lia|].
  assert (Hm : uint32_t (Z.land n 0xffffffff) = m).
  { change 0xffffffff with (Z.ones 32). rewrite Z.land_ones by lia.
    unfold uint32_t. apply Z.mod_mod. lia. }
  rewrite !store_htonl, Hm, (be_split_4 m). split; [reflexivity|].
  change [Byte.x00; Byte.x00; Byte.x00; Byte.x00; e4; e5; e6; e7]
    with ([Byte.x00; Byte.x00; Byte.x00; Byte.x00] ++ [e4; e5; e6; e7]).
  rewrite be_combine_app.
  change (be_combine [Byte.x00; Byte.x00; Byte.x00; Byte.x00]) with 0.
  subst e4 e5 e6 e7. rewrite <- be_split_4, be_combine_split.
  subst m. rewrite Z.mul_0_l, Z.add_0_l. apply Z.mod_mod. cbn. lia.
Qed.

End BaseHeader.

(** C3: the first thing [websocket_send] writes, in one call, is the base
    header followed by the 4-byte mask key.  For a payload of [n] bytes
    the base header has 2 bytes with [n] in the low seven bits of byte 1
    when [n <= 125]; 4 bytes with length class 126 and [n] as a
    big-endian 16-bit integer when [126 <= n <= 65535]; 10 bytes with
    length class 127, four zero bytes and the low 32 bits of [n] as a
    big-endian integer when [n >= 65536].  With the key that makes 6, 8
    or 14 bytes. *)
Theorem send_header_length_encoding host type buf w :
  (0 < tx_credit (net (ws w)))%nat ->
  let n := Zlength buf in
  let key := random_bytes 4 (xrand_src w) in
  let base := base_header host type n in
  (exists more,
     tx (net (ws (snd (websocket_send host type buf w))))
     = tx (net (ws w)) ++ (base ++ key) :: more)
  /\ length key = 4%nat
  /\ (n <= 125 ->
      length base = 2%nat /\ Z.land base.[1] 0x7f = n /\ length (base ++ key) = 6%nat)
  /\ (126 <= n <= 65535 ->
      length base = 4%nat /\ Z.land base.[1] 0x7f = 126
      /\ base.[2] * 256 + base.[3] = n
      /\ length (base ++ key) = 8%nat)
  /\ (65536 <= n ->
      length base = 10%nat /\ Z.land base.[1] 0x7f = 127
      /\ base.[2] = 0 /\ base.[3] = 0 /\ base.[4] = 0 /\ base.[5] = 0
      /\ ((base.[6] * 256 + base.[7]) * 256 + base.[8]) * 256 + base.[9] = n mod 2 ^ 32
      /\ length (base ++ key) = 14%nat).
Proof.
  intros Hcredit n key base.
  assert (Hn : 0 <= n) by apply Zlength_nonneg.
  assert (Hkey : length key = 4%nat) by apply length_random_bytes.
  split.
  { rewrite websocket_send_run. fold n. fold key. fold base.
    erewrite bind_ret by (apply onfail_ret, net_write_ok; cbn; lia).
    match goal with
    | |- context [send_payload n key buf ?i ?p ?nw ?w'] =>
        destruct (send_payload_tx n key buf i p nw w') as [more Hmore]; rewrite Hmore
    end.
    cbn. rewrite <- app_assoc. eexists. reflexivity. }
  split; [exact Hkey|].
  split; [|split].
  - intros H. subst base. rewrite (base_header_7 host type n H).
    split; [reflexivity|]. split; [|rewrite length_app, Hkey; reflexivity].
    unfold at_; cbn [nth]. apply length_class_byte. lia.
  - intros H. subst base.
    destruct (base_header_16 host type n) as [-> Hval]; try lia.
    split; [reflexivity|]. split; [unfold at_; cbn [nth]; apply length_class_byte; lia|].
    split; [exact Hval | rewrite length_app, Hkey; reflexivity].
  - intros H. subst base.
    destruct (base_header_64 host type n) as [-> Hval]; try lia.
    split; [reflexivity|]. split; [unfold at_; cbn [nth]; apply length_class_byte; lia|].
    do 4 (split; [reflexivity|]).
    split; [|rewrite length_app, Hkey; reflexivity].
    unfold at_; cbn [nth]. etransitivity; [|exact Hval].
    rewrite be_combine_8. change (byte.unsigned Byte.x00) with 0. lia.
Qed.

(** A 300-byte payload: length class 126 and the bytes 01 2c. *)
Lemma send_header_length_encoding_witness :
  let base := base_header LittleEndian 2 300 in
  length base = 4%nat /\ Z.land base.[1] 0x7f = 126
  /\ base.[2] * 256 + base.[3] = 300
  /\ length (base ++ random_bytes 4 [9; 8; 7; 6]%N) = 8%nat.
Proof.
  apply (proj1 (proj2 (proj2 (proj2
           (send_header_length_encoding LittleEndian 2 (repeat Byte.x00 300)
              (init_world [9; 8; 7; 6]%N [] 1) ltac:(vm_compute; lia)))))).
  vm_compute. split; discriminate.
Defined.

Example base_header_boundaries :
  base_header BigEndian 1 125 = bytes [0x81; 0xfd]
  /\ base_header BigEndian 1 126 = bytes [0x81; 0xfe; 0; 126]
  /\ base_header LittleEndian 1 65535 = bytes [0x81; 0xfe; 0xff; 0xff]
  /\ base_header LittleEndian 1 65536 = bytes [0x81; 0xff; 0; 0; 0; 0; 0; 1; 0; 0]
  /\ base_header LittleEndian 1 (2 ^ 32 + 7) = bytes [0x81; 0xff; 0; 0; 0; 0; 0; 0; 0; 7].
Proof. vm_compute. repeat split. Qed.

(** ** The random bytes of this layer *)

Lemma reduced_value x : byte.unsigned (reduced x) = x mod 0xff.
Proof.
  unfold reduced, uint8_t. pose proof (Z.mod_pos_bound x 0xff eq_refl) as H.
  rewrite byte.unsigned_of_Z. unfold byte.wrap.
  change (2 ^ 8) with 256.
  rewrite (Z.mod_small (x mod 0xff) 256) by lia. apply Z.mod_small. lia.
Qed.

Lemma reduced_not_ff x : reduced x <> Byte.xff.
Proof.
  intros H. apply (f_equal byte.unsigned) in H. rewrite reduced_value in H.
  pose proof (Z.mod_pos_bound x 0xff eq_refl). change (byte.unsigned Byte.xff) with 255 in H.
  lia.
Qed.

Lemma nth_random_bytes n : forall src i,
  (i < n)%nat ->
  nth i (random_bytes n src) Byte.x00 = reduced (Z.of_N (nth i src 0%N)).
Proof.
  induction n as [|n IH]; intros src i Hi; [lia|].
  cbn [random_bytes]. destruct i as [|i]; cbn [nth].
  - destruct src; reflexivity.
  - rewrite IH by lia. destruct src; [destruct i; reflexivity | reflexivity].
Qed.

Lemma generate_websocket_key_run enc size w :
  generate_websocket_key enc size w
  = match enc size (random_bytes 16 (xrand_src w)) with
    | Some key => (Ret key, after_xrand 16 w)
    | None => (Fail, log "mbedtls_base64_encode error\n" (after_xrand 16 w))
    end.
Proof.
  unfold generate_websocket_key. unfold bind at 1.
  rewrite for_each_xrand. fold (after_xrand 16 w).
  destruct (enc size (random_bytes 16 (xrand_src w))); reflexivity.
Qed.

(** C10: the 16 nonce bytes that [generate_websocket_key] feeds into the
    base64 encoder and the 4 mask-key bytes that [websocket_send] puts in
    the header and masks with are [random_bytes]: byte [i] is the [i]-th
    source byte reduced modulo 255.  Such a byte is never 255, and over
    the 256 source values the result 0 comes up twice (from 0 and from
    255), each of 1..254 once and 255 never: a uniform source does not
    give a uniform result. *)
Theorem random_bytes_reduced_mod_255 :
  (forall enc size w,
      generate_websocket_key enc size w
      = match enc size (random_bytes 16 (xrand_src w)) with
        | Some key => (Ret key, after_xrand 16 w)
        | None => (Fail, log "mbedtls_base64_encode error\n" (after_xrand 16 w))
        end)
  /\ (forall host type buf w,
         websocket_send host type buf w
         = (net_write (base_header host type (Zlength buf) ++ random_bytes 4 (xrand_src w))
              orelse "net_write error\n" ;;;
            send_payload (Zlength buf) (random_bytes 4 (xrand_src w)) buf 0 [] 0)
             (after_xrand 4 w))
  /\ (forall n src i, (i < n)%nat ->
         byte.unsigned (nth i (random_bytes n src) Byte.x00)
         = Z.of_N (nth i src 0%N) mod 0xff
         /\ nth i (random_bytes n src) Byte.x00 <> Byte.xff)
  /\ preimages Byte.x00 = 2%nat
  /\ preimages Byte.xff = 0%nat
  /\ (forall v, v <> Byte.x00 -> v <> Byte.xff -> preimages v = 1%nat).
Proof.
  split; [|split; [|split; [|split; [|split]]]].
  - apply generate_websocket_key_run.
  - apply websocket_send_run.
  - intros n src i Hi. rewrite nth_random_bytes by exact Hi.
    split; [apply reduced_value | apply reduced_not_ff].
  - vm_compute. reflexivity.
  - vm_compute. reflexivity.
  - intros v H0 Hff. destruct v; try (vm_compute; reflexivity); congruence.
Qed.

(** A source that yields 255 gives the key byte 0; 254 stays 254. *)
Lemma random_bytes_reduced_mod_255_witness :
  byte.unsigned (nth 0 (random_bytes 4 [255; 254; 3; 4]%N) Byte.x00) = 0
  /\ nth 0 (random_bytes 4 [255; 254; 3; 4]%N) Byte.x00 <> Byte.xff.
Proof.
  apply (proj1 (proj2 (proj2 random_bytes_reduced_mod_255)) 4%nat [255; 254; 3; 4]%N 0%nat).
  lia.
Defined.

(** ** Handshake: the status line *)

Lemma bytes_eqb_eq a : forall b, bytes_eqb a b = true <-> a = b.
Proof.
  induction a as [|x a IH]; intros [|y b]; cbn; split; intros H;
    try reflexivity; try discriminate.
  - apply andb_true_iff in H. destruct H as [Hx Hab].
    apply Byte.byte_dec_bl in Hx. apply IH in Hab. subst. reflexivity.
  - inversion H; subst. apply andb_true_iff. split; [apply Byte.byte_dec_lb; reflexivity|].
    apply IH. reflexivity.
Qed.

Lemma status_line_no_nul : ~ In Byte.x00 status_line.
Proof.
  assert (H : forallb (fun b => negb (Byte.eqb b Byte.x00)) status_line = true) by reflexivity.
  rewrite forallb_forall in H. intros Hin. specialize (H _ Hin). discriminate.
Qed.

(** [memcmp(buf, "HTTP/1.1 101 Switching Protocols", 32)] on the
    zero-filled buffer answers 0 only if the response itself begins with
    the 32 bytes of the status line. *)
Lemma memcmp_status_line resp :
  (length resp < 4096)%nat ->
  memcmp_eq (in_buffer 4096 resp) status_line 32 = true ->
  firstn 32 resp = status_line.
Proof.
  intros Hlen H. unfold memcmp_eq, in_buffer in H. apply bytes_eqb_eq in H.
  change (firstn (Z.to_nat 32) status_line) with status_line in H.
  change (Z.to_nat 32) with 32%nat in H. rewrite firstn_app in H.
  destruct (Nat.le_gt_cases 32 (length resp)) as [Hge|Hlt].
  - replace (32 - length resp)%nat with 0%nat in H by lia.
    rewrite firstn_O, app_nil_r in H. exact H.
  - exfalso. apply status_line_no_nul. rewrite <- H. apply in_or_app. right.
    destruct (32 - length resp)%nat as [|j] eqn:Ej; [lia|].
    destruct (4096 - length resp)%nat as [|k] eqn:Ek; [lia|].
    left. reflexivity.
Qed.

Section HandshakeStatus.
Variable enc : Z -> list byte -> option (list byte).
Variable sha : list byte -> list byte.
Variables host path : list byte.
Variable w : world.

(** C8: take a handshake that gets as far as reading the response (the
    key was encoded, the request fits its 4096-byte buffer, the write
    and the read succeeded).  If the response does not begin with the 32
    bytes "HTTP/1.1 101 Switching Protocols", the handshake returns -1
    with the invalid-status diagnostic showing the response, and nothing
    else happens: the outcome is the same for every digest function, so
    no accept value enters it. *)
Theorem handshake_rejects_bad_status ws_key :
  enc 128 (random_bytes 16 (xrand_src w)) = Some ws_key ->
  Zlength (request host path ws_key) < 4096 ->
  (0 < tx_credit (net (ws w)))%nat ->
  rx (net (ws w)) <> [] ->
  let resp := firstn 4095 (rx (net (ws w))) in
  firstn 32 resp <> status_line ->
  websocket_handshake enc sha host path w
  = (Fail,
     log (String.append "request failed, invalid status: "
            (String.append (show (in_buffer 4096 resp)) "\n"))
         (after_response host path w ws_key)).
Proof.
  intros Henc Hfit Hcredit Hrx resp Hbad.
  unfold websocket_handshake.
  erewrite bind_ret
    by (apply onfail_ret; rewrite generate_websocket_key_run, Henc; reflexivity).
  fold (request host path ws_key).
  assert (Hpos : 0 < Zlength (request host path ws_key)).
  { unfold request. rewrite Zlength_app. pose proof (Zlength_nonneg
      (c_str path ++ str " HTTP/1.1" ++ crlf ++ str "Host: " ++ c_str host ++ crlf
       ++ str "Upgrade: websocket" ++ crlf ++ str "Connection: Upgrade" ++ crlf
       ++ str "Sec-WebSocket-Key: " ++ c_str ws_key ++ crlf
       ++ str "Sec-WebSocket-Version: " ++ str WEBSOCKET_VERSION ++ crlf ++ crlf)).
    change (Zlength (str "GET ")) with 4. lia. }
  destruct (Z.leb_spec (Zlength (request host path ws_key)) 0); [lia|].
  destruct (Z.leb_spec 4096 (Zlength (request host path ws_key))); [lia|].
  cbn [orb].
  erewrite bind_ret by (apply onfail_ret, net_write_ok; cbn; exact Hcredit).
  assert (Hread : net_read (4096 - 1) (after_writes [request host path ws_key] (after_xrand 16 w))
                  = (Ret resp, after_response host path w ws_key)).
  { unfold net_read, after_response. subst resp.
    cbn [after_writes after_xrand set_net net ws rx].
    destruct (rx (net (ws w))) eqn:E; [congruence | reflexivity]. }
  rewrite (bind_ret _ _ _ _ _ (onfail_ret _ _ _ _ _ Hread)).
  cbv zeta. fold status_line.
  destruct (memcmp_eq (in_buffer 4096 resp) status_line 32) eqn:Hcmp; [|reflexivity].
  exfalso. apply Hbad. apply memcmp_status_line; [|exact Hcmp].
  subst resp. rewrite length_firstn. lia.
Qed.

End HandshakeStatus.

(** A server that answers 404. *)
Lemma handshake_rejects_bad_status_witness :
  websocket_handshake base64_encode sha1 (str "example.com") (str "/chat")
    (init_world [] (str "HTTP/1.1 404 Not Found" ++ crlf ++ crlf) 1)
  = (Fail,
     log (String.append "request failed, invalid status: "
            (String.append
               (show (in_buffer 4096 (str "HTTP/1.1 404 Not Found" ++ crlf ++ crlf))) "\n"))
         (after_response (str "example.com") (str "/chat")
            (init_world [] (str "HTTP/1.1 404 Not Found" ++ crlf ++ crlf) 1)
            (str "AAAAAAAAAAAAAAAAAAAAAA=="))).
Proof.
  apply (handshake_rejects_bad_status base64_encode sha1 (str "example.com") (str "/chat")
           (init_world [] (str "HTTP/1.1 404 Not Found" ++ crlf ++ crlf) 1)
           (str "AAAAAAAAAAAAAAAAAAAAAA==")).
  - vm_compute. reflexivity.
  - vm_compute. reflexivity.
  - vm_compute. lia.
  - vm_compute. discriminate.
  - vm_compute. discriminate.
Defined.

(** The accept value of RFC 6455, section 1.3. *)
Example rfc6455_sample_accept :
  fst (generate_websocket_accept base64_encode sha1 (str "dGhlIHNhbXBsZSBub25jZQ==")
         (init_world [] [] 0))
  = Ret (str "s3pPLMBiTxaQ9kYGzzhZRbK+xOo=").
Proof. vm_compute. reflexivity. Qed.

(** A handshake that succeeds, and one whose accept value is wrong. *)
Example handshake_accepts :
  fst (websocket_handshake base64_encode sha1 (str "example.com") (str "/chat")
         (init_world []
            (status_line ++ crlf
             ++ str "Sec-WebSocket-Accept: ICX+Yqv66kxgM0FcWaLWlFLwTAI=" ++ crlf ++ crlf) 1))
  = Ret tt.
Proof. vm_compute. reflexivity. Qed.

Example handshake_accept_mismatch :
  fst (websocket_handshake base64_encode sha1 (str "example.com") (str "/chat")
         (init_world []
            (status_line ++ crlf
             ++ str "Sec-WebSocket-Accept: s3pPLMBiTxaQ9kYGzzhZRbK+xOo=" ++ crlf ++ crlf) 1))
  = Fail.
Proof. vm_compute. reflexivity. Qed.

(** ** The remaining counter across calls *)



Example recv_undersized_buffer :
  let w0 := init_world [] (bytes [0x82; 5; 1; 2; 9; 8; 7; 0x81; 1; 0x55]) 0 in
  let '(r1, w1) := websocket_recv LittleEndian 2 w0 in
  let '(r2, w2) := websocket_recv LittleEndian 2 w1 in
  r1 = Ret (2, 2, bytes [1; 2]) /\ remaining (ws w1) = 3
  /\ r2 = Ret (1, 1, bytes [0x55]) /\ remaining (ws w2) = 0
  /\ rd (net (ws w2))
     = [bytes [0x82; 5]; bytes [1; 2]; bytes [9; 8; 7]; bytes [0x81; 1]; bytes [0x55]].
Proof. vm_compute. repeat split. Qed.

(** ** Masked inbound frames and the loop-back round trip *)

(** C1 (at a failing input): the text frame "ABCDE" masked with the key
    01 02 03 04 arrives; [websocket_recv] reads the key and hands the
    five payload bytes over as they came, 40 40 40 40 44, while XOR with
    the key would have given 41 42 43 44 45. *)
Theorem recv_leaves_payload_masked :
  let key := bytes [1; 2; 3; 4] in
  let wire := bytes [0x40; 0x40; 0x40; 0x40; 0x44] in
  let frame := bytes [0x81; 0x85] ++ key ++ wire in
  fst (websocket_recv LittleEndian 16 (init_world [] frame 0)) = Ret (5, 1, wire)
  /\ mask_from key 0 wire = bytes [0x41; 0x42; 0x43; 0x44; 0x45]
  /\ wire <> mask_from key 0 wire.
Proof. vm_compute. repeat split. discriminate. Qed.

(** An unmasked frame is passed through, and in both cases the caller
    gets [min(n, len)] bytes. *)
Example recv_unmasked_frame :
  fst (websocket_recv LittleEndian 3
         (init_world [] (bytes [0x81; 0x05; 0x41; 0x42; 0x43; 0x44; 0x45]) 0))
  = Ret (3, 1, bytes [0x41; 0x42; 0x43])
  /\ fst (websocket_recv LittleEndian 3
            (init_world [] (bytes [0x81; 0x85; 1; 2; 3; 4; 0x40; 0x40; 0x40; 0x40; 0x44]) 0))
     = Ret (3, 1, bytes [0x40; 0x40; 0x40]).
Proof. vm_compute. split; reflexivity. Qed.

(** C2 (at a failing input): the one-byte text message "A" sent with the
    mask key 01 02 03 04 comes back over the loop-back transport as
    the byte 40, not 41. *)
Theorem loopback_roundtrip_returns_masked :
  let w0 := init_world [1; 2; 3; 4]%N [] 2 in
  let w1 := snd (websocket_send LittleEndian 1 (bytes [0x41]) w0) in
  fst (websocket_send LittleEndian 1 (bytes [0x41]) w0) = Ret 1
  /\ rx (net (ws (loopback w1))) = bytes [0x81; 0x81; 1; 2; 3; 4; 0x40]
  /\ fst (websocket_recv LittleEndian 16 (loopback w1)) = Ret (1, 1, bytes [0x40]).
Proof. vm_compute. repeat split. Qed.

(** The round trip does hold for the empty payload and whenever the
    generated key is all zeros (source bytes 0 or 255). *)
Example loopback_roundtrip_empty :
  let w1 := snd (websocket_send LittleEndian 2 [] (init_world [1; 2; 3; 4]%N [] 2)) in
  fst (websocket_recv LittleEndian 16 (loopback w1)) = Ret (0, 2, []).
Proof. vm_compute. reflexivity. Qed.

Example loopback_roundtrip_zero_key :
  let buf := bytes [0x41; 0x42; 0x43] in
  let w1 := snd (websocket_send LittleEndian 1 buf (init_world [0; 255; 255; 0]%N [] 2)) in
  fst (websocket_recv LittleEndian 16 (loopback w1)) = Ret (3, 1, buf).
Proof. vm_compute. reflexivity. Qed.

(** *** What the round trip yields in general *)

Lemma first_byte_fields type :
  0 <= type < 16 ->
  let b0 := byte.of_Z (Z.lor (Z.lor 0 FRAME_FIN) (uint8_t type)) in
  Z.land (byte.unsigned b0) 0x70 = 0
  /\ uint8_t (Z.land (byte.unsigned b0) FRAME_FIN) = 128
  /\ uint8_t (Z.land (byte.unsigned b0) FRAME_OPCODE) = type.
Proof.
  intros H.
  assert (Hcases : type = 0 \/ type = 1 \/ type = 2 \/ type = 3 \/ type = 4 \/ type = 5
                   \/ type = 6 \/ type = 7 \/ type = 8 \/ type = 9 \/ type = 10
                   \/ type = 11 \/ type = 12 \/ type = 13 \/ type = 14 \/ type = 15) by lia.
  repeat (destruct Hcases as [->|Hcases]; [vm_compute; repeat split|]).
  subst type. vm_compute. repeat split.
Qed.

Lemma mask_bit_set b :
  Z.testbit (byte.unsigned b) 7 = true ->
  (uint8_t (Z.land (byte.unsigned b) FRAME_MASK) =? 0) = false.
Proof. destruct b; cbn; intros H; try reflexivity; discriminate. Qed.

Lemma length_chunk_mask_from key buf :
  length (List.chunk 2048 (mask_from key 0 buf)) = length (List.chunk 2048 buf).
Proof. rewrite !List.length_chunk by lia. rewrite length_mask_from. reflexivity. Qed.

(** On a fresh loop-back link and a little-endian host, what
    [websocket_recv] returns for a frame [websocket_send] wrote is the
    number of bytes, the opcode and the payload as masked for the wire,
    for every payload of at most [INT_MAX] bytes that fits the caller's
    buffer. *)
Lemma loopback_roundtrip type buf w cap :
  0 <= type < 16 ->
  Zlength buf <= INT_MAX ->
  Zlength buf <= cap ->
  rx (net (ws w)) = [] -> tx (net (ws w)) = [] -> remaining (ws w) = 0 ->
  (length (List.chunk 2048 buf) < tx_credit (net (ws w)))%nat ->
  fst (websocket_recv LittleEndian cap
         (loopback (snd (websocket_send LittleEndian type buf w))))
  = Ret (Zlength buf, type, mask_from (random_bytes 4 (xrand_src w)) 0 buf).
Proof.
  intros Htype Hsmall Hcap Hrx Htx Hrem Hcredit.
  unfold INT_MAX in Hsmall.
  set (key := random_bytes 4 (xrand_src w)).
  set (n := Zlength buf) in *.
  assert (Hn : 0 <= n) by apply Zlength_nonneg.
  set (masked := mask_from key 0 buf).
  assert (HZm : Zlength masked = n)
    by (unfold Zlength, masked, n; rewrite length_mask_from; reflexivity).
  assert (Hkey : Zlength key = 4)
    by (unfold Zlength, key; rewrite length_random_bytes; reflexivity).
  rewrite websocket_send_ok by (rewrite length_chunk_mask_from; exact Hcredit). cbn [snd]. fold n. fold key. fold masked.
  set (wl := loopback _).
  assert (Hwl_rx : rx (net (ws wl)) = base_header LittleEndian type n ++ key ++ masked).
  { subst wl. unfold loopback, after_writes, after_xrand, set_net.
    cbn [rx net ws tx]. rewrite Hrx, Htx. cbn [app concat].
    unfold masked. rewrite List.concat_chunk, <- app_assoc. reflexivity. }
  assert (Hwl_rem : remaining (ws wl) = 0) by (subst wl; cbn; exact Hrem).
  destruct (first_byte_fields type Htype) as (Hrsv & Hfin & Hop).
  set (b0 := byte.of_Z (Z.lor (Z.lor 0 FRAME_FIN) (uint8_t type))) in *.
  assert (Hdeliver : forall b1 w2,
             websocket_read_frame_hdr LittleEndian wl = (Ret (hdr_of b0 b1 n), w2) ->
             Z.testbit (byte.unsigned b1) 7 = true ->
             rx (net (ws w2)) = key ++ masked ->
             fst (websocket_recv LittleEndian cap wl) = Ret (n, type, masked)).
  { intros b1 w2 Hhdr Hbit Hrx2.
    pose proof (mask_bit_set b1 Hbit) as Hmask.
    erewrite (websocket_recv_delivers LittleEndian cap wl wl (hdr_of b0 b1 n) w2 key masked []).
    - cbn [fst opcode hdr_of]. rewrite Hop, HZm. reflexivity.
    - lia.
    - cbn [len hdr_of]. unfold INT_MAX. lia.
    - rewrite Hwl_rem. reflexivity.
    - exact Hhdr.
    - cbn [fin hdr_of]. rewrite Hfin. discriminate.
    - rewrite app_nil_r. exact Hrx2.
    - cbn [mask hdr_of]. rewrite Hmask. exact Hkey.
    - cbn [len hdr_of]. rewrite HZm. lia. }
  destruct (Z_le_gt_dec n 125) as [H7|H7]; [|destruct (Z_le_gt_dec n 0xffff) as [H16|H16]].
  - rewrite (base_header_7 LittleEndian type n H7) in Hwl_rx. fold b0 in Hwl_rx.
    destruct (length_class_byte n) as [Hclass Hbit]; [lia|].
    set (b1 := byte.of_Z (Z.lor (Z.lor 0 FRAME_MASK) n)) in *.
    apply (Hdeliver b1 (after_readn [b0; b1] (key ++ masked) wl)); [|exact Hbit|reflexivity].
    rewrite (read_frame_hdr_len7 LittleEndian wl b0 b1 (key ++ masked) Hwl_rx Hrsv)
      by (rewrite Hclass; exact H7).
    rewrite Hclass. reflexivity.
  - destruct (base_header_16 LittleEndian type n) as [Hbase Hval]; try lia.
    rewrite Hbase in Hwl_rx. fold b0 in Hwl_rx.
    destruct (length_class_byte 126) as [Hclass Hbit]; [lia|].
    set (b1 := byte.of_Z (Z.lor (Z.lor 0 FRAME_MASK) 126)) in *.
    set (e0 := byte.of_Z (Z.shiftr n 8)) in *. set (e1 := byte.of_Z n) in *.
    apply (Hdeliver b1 (after_readn [e0; e1] (key ++ masked)
                          (after_readn [b0; b1] (e0 :: e1 :: key ++ masked) wl)));
      [|exact Hbit|reflexivity].
    rewrite (read_frame_hdr_len16 LittleEndian wl b0 b1 (e0 :: e1 :: key ++ masked)
               Hwl_rx Hrsv e0 e1 (key ++ masked) Hclass eq_refl).
    rewrite Hval. reflexivity.
  - destruct (base_header_64 LittleEndian type n) as [Hbase Hval]; try lia.
    rewrite Hbase in Hwl_rx. fold b0 in Hwl_rx.
    destruct (length_class_byte 127) as [Hclass Hbit]; [lia|].
    set (b1 := byte.of_Z (Z.lor (Z.lor 0 FRAME_MASK) 127)) in *.
    set (m := n mod 2 ^ 32) in *.
    assert (Hm : m = n) by (subst m; apply Z.mod_small; lia).
    set (e4 := byte.of_Z (Z.shiftr (Z.shiftr (Z.shiftr m 8) 8) 8)) in *.
    set (e5 := byte.of_Z (Z.shiftr (Z.shiftr m 8) 8)) in *.
    set (e6 := byte.of_Z (Z.shiftr m 8)) in *. set (e7 := byte.of_Z m) in *.
    apply (Hdeliver b1
             (after_readn [Byte.x00; Byte.x00; Byte.x00; Byte.x00; e4; e5; e6; e7]
                (key ++ masked)
                (after_readn [b0; b1]
                   (Byte.x00 :: Byte.x00 :: Byte.x00 :: Byte.x00 :: e4 :: e5 :: e6 :: e7
                      :: key ++ masked) wl)));
      [|exact Hbit|reflexivity].
    rewrite (read_frame_hdr_len64 LittleEndian wl b0 b1 _
               Byte.x00 Byte.x00 Byte.x00 Byte.x00 e4 e5 e6 e7 (key ++ masked)
               Hwl_rx Hrsv Hclass eq_refl).
    rewrite Hval, Hm. reflexivity.
Qed.

(** At the sizes where the length encoding changes the frame itself
    survives the round trip: opcode and length come back, and the
    payload comes back masked. *)
Corollary loopback_roundtrip_sizes (n : nat) (type : Z) (buf : list byte) (src : list N) :
  In n (map Z.to_nat [0; 1; 125; 126; 127; 65535; 65536]) ->
  length buf = n -> 0 <= type < 16 ->
  fst (websocket_recv LittleEndian 65536
         (loopback (snd (websocket_send LittleEndian type buf (init_world src [] 64)))))
  = Ret (Z.of_nat n, type, mask_from (random_bytes 4 src) 0 buf).
Proof.
  intros Hn Hlen Htype.
  assert (Hle : (n <= Z.to_nat 65536)%nat).
  { cbn [map In] in Hn. repeat (destruct Hn as [<-|Hn]; [lia|]). contradiction. }
  rewrite <- Hlen. change (Z.of_nat (length buf)) with (Zlength buf).
  apply (loopback_roundtrip type buf (init_world src [] 64) 65536);
    try reflexivity; try assumption.
  - unfold Zlength, INT_MAX. lia.
  - unfold Zlength. lia.
  - rewrite List.length_chunk by lia. cbn [tx_credit net ws init_world].
    unfold coqutil.Datatypes.List.Nat.div_up. rewrite Hlen.
    apply Nat.Div0.div_lt_upper_bound. lia.
Qed.

(** * Further properties of the code *)

(** ** Sending on a link that stops accepting writes *)

Lemma net_write_refused data w :
  tx_credit (net (ws w)) = 0%nat -> net_write data w = (Fail, w).
Proof. intros H. unfold net_write. rewrite H. reflexivity. Qed.

(** The payload loop on a link that gives out before the last chunk:
    the chunks the credit covers are written, then the loop returns -1. *)
Lemma send_payload_refused n key ptr : forall i payload nwrite w,
  n = i + Zlength ptr ->
  (length payload < 2048)%nat ->
  (ptr = [] -> payload = []) ->
  (tx_credit (net (ws w)) < length (List.chunk' 2048 (mask_from key i ptr) payload))%nat ->
  send_payload n key ptr i payload nwrite w
  = (Fail,
     log "net_write error\n"
       (after_writes (firstn (tx_credit (net (ws w)))
                        (List.chunk' 2048 (mask_from key i ptr) payload)) w)).
Proof.
  induction ptr as [|b ptr IH]; intros i payload nwrite w Hn Hlen Hnil Hcredit.
  - rewrite (Hnil eq_refl) in Hcredit. cbn in Hcredit. lia.
  - cbn [send_payload mask_from List.chunk'] in *. cbv zeta in *.
    set (x := byte.xor b (nth (Z.to_nat (i mod 4)) key Byte.x00)) in *.
    assert (Hl : length (payload ++ [x]) = S (length payload))
      by (rewrite length_app; cbn; lia).
    rewrite Zlength_cons in Hn.
    assert (Hstep : forall more,
               (tx_credit (net (ws w)) < S (length more))%nat ->
               (forall w1 nw, (tx_credit (net (ws w1)) < length more)%nat ->
                  send_payload n key ptr (i + 1) [] nw w1
                  = (Fail, log "net_write error\n"
                             (after_writes (firstn (tx_credit (net (ws w1))) more) w1))) ->
               (r <- net_write (payload ++ [x]) orelse "net_write error\n" ;;
                send_payload n key ptr (i + 1) [] (int_t (nwrite + r))) w
               = (Fail, log "net_write error\n"
                          (after_writes (firstn (tx_credit (net (ws w)))
                                           ((payload ++ [x]) :: more)) w))).
    { intros more Hc Hrest.
      destruct (tx_credit (net (ws w))) as [|c] eqn:Ec.
      - erewrite bind_fail by (apply onfail_fail, net_write_refused; exact Ec).
        cbn [firstn]. rewrite after_writes_nil. reflexivity.
      - erewrite bind_ret by (apply onfail_ret, net_write_ok; lia).
        rewrite Hrest by (cbn; rewrite Ec; lia).
        cbn [firstn]. f_equal. f_equal.
        replace (tx_credit (net (ws (after_writes [payload ++ [x]] w)))) with c
          by (cbn; rewrite Ec; lia).
        apply after_writes_cons. lia. }
    destruct (Nat.ltb_spec (length (payload ++ [x])) 2048) as [Hsmall|Hfull].
    + assert (Hz : (Zlength (payload ++ [x]) <? 2048) = true)
        by (apply Z.ltb_lt; unfold Zlength; lia).
      rewrite Hz. cbn [andb].
      destruct ptr as [|b' ptr'].
      * assert (Hi : (i + 1 <? n) = false)
          by (apply Z.ltb_ge; unfold Zlength in Hn; cbn in Hn; lia).
        rewrite Hi. cbn [mask_from] in *.
        rewrite chunk'_flush in * by (intros E; rewrite E in Hl; discriminate).
        apply (Hstep []); [exact Hcredit|]. intros w1 nw H1. cbn in H1. lia.
      * assert (Hi : (i + 1 <? n) = true)
          by (apply Z.ltb_lt; rewrite !Zlength_cons in Hn;
              pose proof (Zlength_nonneg ptr'); lia).
        rewrite Hi. apply IH; [lia|exact Hsmall|discriminate|exact Hcredit].
    + assert (Hz : (Zlength (payload ++ [x]) <? 2048) = false)
        by (apply Z.ltb_ge; unfold Zlength; lia).
      rewrite Hz. cbn [andb]. cbn [length] in Hcredit.
      apply Hstep; [exact Hcredit|]. intros w1 nw H1.
      apply IH; [lia|cbn; lia|reflexivity|exact H1].
Qed.

(** X1: [websocket_send] is not atomic.  On a link that accepts fewer
    writes than the frame needs (one for the header and one per chunk),
    the call draws its mask key, writes the header and the chunks the
    link still accepts, prints the write diagnostic and returns -1; what
    was written stays written. *)
Theorem send_fails_when_link_gives_out host type buf w :
  let key := random_bytes 4 (xrand_src w) in
  let header := base_header host type (Zlength buf) ++ key in
  let chunks := List.chunk 2048 (mask_from key 0 buf) in
  let credit := tx_credit (net (ws w)) in
  (credit <= length chunks)%nat ->
  websocket_send host type buf w
  = (Fail, log "net_write error\n"
             (after_writes (firstn credit (header :: chunks)) (after_xrand 4 w)))
  /\ tx (net (ws (snd (websocket_send host type buf w))))
     = tx (net (ws w)) ++ firstn credit (header :: chunks)
  /\ stderr (snd (websocket_send host type buf w)) = stderr w ++ ["net_write error\n"%string].
Proof.
  intros key header chunks credit Hcredit.
  assert (Hrun : websocket_send host type buf w
                 = (Fail, log "net_write error\n"
                            (after_writes (firstn credit (header :: chunks))
                               (after_xrand 4 w)))).
  { rewrite websocket_send_run. fold key. fold header.
    subst credit. destruct (tx_credit (net (ws w))) as [|c] eqn:Ec.
    - erewrite bind_fail by (apply onfail_fail, net_write_refused; exact Ec).
      cbn [firstn]. rewrite after_writes_nil. reflexivity.
    - erewrite bind_ret
        by (apply onfail_ret, net_write_ok;
            cbn [tx_credit net ws after_xrand]; rewrite Ec; lia).
      rewrite send_payload_refused;
        [|lia|cbn; lia|reflexivity
         |fold (List.chunk 2048 (mask_from key 0 buf)); fold chunks;
          cbn [tx_credit net ws after_writes after_xrand set_net length];
          rewrite Ec; lia].
      fold (List.chunk 2048 (mask_from key 0 buf)). fold chunks.
      cbn [firstn]. f_equal. f_equal.
      replace (tx_credit (net (ws (after_writes [header] (after_xrand 4 w))))) with c
        by (cbn [tx_credit net ws after_writes after_xrand set_net length];
            rewrite Ec; lia).
      apply after_writes_cons. cbn [tx_credit net ws after_xrand]. lia. }
  split; [exact Hrun|]. rewrite Hrun. split; reflexivity.
Qed.

(** 5000 bytes need the header and three chunks; with credit for two
    writes the header and the first chunk go out. *)
Lemma send_fails_when_link_gives_out_witness :
  map (@length byte)
      (tx (net (ws (snd (websocket_send LittleEndian 2 (repeat Byte.x41 5000)
                          (init_world [1; 2; 3; 4]%N [] 2))))))
  = [8; 2048]%nat.
Proof.
  rewrite (proj1 (proj2 (send_fails_when_link_gives_out LittleEndian 2
                           (repeat Byte.x41 5000) (init_world [1; 2; 3; 4]%N [] 2)
                           ltac:(vm_compute; lia)))).
  vm_compute. reflexivity.
Defined.

(** ** The frame on the wire *)

Lemma byte_xor_unsigned a k :
  byte.unsigned (byte.xor a k) = Z.lxor (byte.unsigned a) (byte.unsigned k).
Proof.
  unfold byte.xor. rewrite byte.unsigned_of_Z.
  rewrite <- (byte.wrap_unsigned a), <- (byte.wrap_unsigned k). unfold byte.wrap.
  rewrite <- !Z.land_ones by lia. Z.bitblast.
Qed.

Lemma byte_xor_involutive a k : byte.xor (byte.xor a k) k = a.
Proof.
  apply byte.unsigned_inj. rewrite !byte_xor_unsigned.
  rewrite Z.lxor_assoc, Z.lxor_nilpotent, Z.lxor_0_r. reflexivity.
Qed.

(** Masking with the same key from the same index undoes itself. *)
Lemma mask_from_involutive key ptr : forall i,
  mask_from key i (mask_from key i ptr) = ptr.
Proof.
  induction ptr as [|b ptr IH]; intros i; cbn [mask_from]; [reflexivity|].
  rewrite byte_xor_involutive, IH. reflexivity.
Qed.

(** X2: what a successful [websocket_send] puts on the wire is one RFC
    6455 frame: the writes, laid end to end, are the base header, the
    four key bytes and as many payload bytes as the caller gave, and a
    peer that XORs payload byte [i] with [key[i % 4]] gets the caller's
    bytes back. *)
Theorem send_wire_frame_unmasks host type buf w :
  let key := random_bytes 4 (xrand_src w) in
  (length (List.chunk 2048 buf) < tx_credit (net (ws w)))%nat ->
  exists writes payload,
    tx (net (ws (snd (websocket_send host type buf w)))) = tx (net (ws w)) ++ writes
    /\ concat writes = base_header host type (Zlength buf) ++ key ++ payload
    /\ length key = 4%nat
    /\ length payload = length buf
    /\ mask_from key 0 payload = buf.
Proof.
  intros key Hcredit.
  exists ((base_header host type (Zlength buf) ++ key)
            :: List.chunk 2048 (mask_from key 0 buf)), (mask_from key 0 buf).
  rewrite websocket_send_ok by (fold key; rewrite length_chunk_mask_from; exact Hcredit).
  fold key. split; [reflexivity|].
  split; [cbn [concat]; rewrite List.concat_chunk, <- app_assoc; reflexivity|].
  split; [apply length_random_bytes|].
  split; [apply length_mask_from | apply mask_from_involutive].
Qed.

Lemma send_wire_frame_unmasks_witness :
  exists writes payload,
    tx (net (ws (snd (websocket_send BigEndian 1 (bytes [0x48; 0x69])
                        (init_world [7; 8; 9; 10]%N [] 2)))))
    = [] ++ writes
    /\ concat writes
       = base_header BigEndian 1 2 ++ random_bytes 4 [7; 8; 9; 10]%N ++ payload
    /\ length (random_bytes 4 [7; 8; 9; 10]%N) = 4%nat
    /\ length payload = 2%nat
    /\ mask_from (random_bytes 4 [7; 8; 9; 10]%N) 0 payload = bytes [0x48; 0x69].
Proof.
  apply (send_wire_frame_unmasks BigEndian 1 (bytes [0x48; 0x69])
           (init_world [7; 8; 9; 10]%N [] 2)).
  vm_compute. lia.
Defined.



(** ** Header encode and decode together *)

Lemma mask_bit_value b :
  Z.testbit (byte.unsigned b) 7 = true ->
  uint8_t (Z.land (byte.unsigned b) FRAME_MASK) = 128.
Proof. destruct b; cbn; intros H; try reflexivity; discriminate. Qed.

Lemma first_byte_reserved type :
  Z.land (byte.unsigned (byte.of_Z (Z.lor (Z.lor 0 FRAME_FIN) (uint8_t type)))) 0x70
  = Z.land (uint8_t type) 0x70.
Proof.
  replace (uint8_t type) with (byte.unsigned (byte.of_Z type))
    by (rewrite byte.unsigned_of_Z; reflexivity).
  destruct (byte.of_Z type); reflexivity.
Qed.

(** X4: decoding the base header that [websocket_send] builds gives back
    FIN set, the opcode, the mask bit set and the payload length, on
    either kind of host as long as the length fits 16 bits.  With the
    64-bit form the two sides agree on a little-endian host only: a
    big-endian host decodes its own header to [n * 2^32]. *)
Theorem header_encode_decode host type n w rest :
  0 <= type < 16 ->
  0 <= n < 2 ^ 32 ->
  rx (net (ws w)) = base_header host type n ++ rest ->
  exists w',
    websocket_read_frame_hdr host w
    = (Ret (mk_frame_hdr 128 type 128
              (if n <=? 0xffff then n
               else match host with LittleEndian => n | BigEndian => n * 2 ^ 32 end)),
       w')
    /\ rx (net (ws w')) = rest.
Proof.
  intros Htype Hn Hrx.
  destruct (first_byte_fields type Htype) as (Hrsv & Hfin & Hop).
  set (b0 := byte.of_Z (Z.lor (Z.lor 0 FRAME_FIN) (uint8_t type))) in *.
  destruct (Z.leb_spec n 0xffff) as [H16|H64]; [destruct (Z_le_gt_dec n 125) as [H7|H7]|].
  - rewrite (base_header_7 host type n H7) in Hrx. fold b0 in Hrx.
    destruct (length_class_byte n) as [Hclass Hbit]; [lia|].
    set (b1 := byte.of_Z (Z.lor (Z.lor 0 FRAME_MASK) n)) in *.
    eexists. split.
    + rewrite (read_frame_hdr_len7 host w b0 b1 rest Hrx Hrsv) by (rewrite Hclass; exact H7).
      unfold hdr_of. rewrite Hfin, Hop, (mask_bit_value b1 Hbit), Hclass. reflexivity.
    + reflexivity.
  - destruct (base_header_16 host type n) as [Hbase Hval]; try lia.
    rewrite Hbase in Hrx. fold b0 in Hrx.
    destruct (length_class_byte 126) as [Hclass Hbit]; [lia|].
    set (b1 := byte.of_Z (Z.lor (Z.lor 0 FRAME_MASK) 126)) in *.
    eexists. split.
    + rewrite (read_frame_hdr_len16 host w b0 b1 _ Hrx Hrsv _ _ rest Hclass eq_refl).
      unfold hdr_of. rewrite Hfin, Hop, (mask_bit_value b1 Hbit), Hval. reflexivity.
    + reflexivity.
  - destruct (base_header_64 host type n) as [Hbase Hval]; try lia.
    rewrite Hbase in Hrx. fold b0 in Hrx.
    destruct (length_class_byte 127) as [Hclass Hbit]; [lia|].
    set (b1 := byte.of_Z (Z.lor (Z.lor 0 FRAME_MASK) 127)) in *.
    set (m := n mod 2 ^ 32) in *.
    assert (Hm : m = n) by (subst m; apply Z.mod_small; lia).
    set (e4 := byte.of_Z (Z.shiftr (Z.shiftr (Z.shiftr m 8) 8) 8)) in *.
    set (e5 := byte.of_Z (Z.shiftr (Z.shiftr m 8) 8)) in *.
    set (e6 := byte.of_Z (Z.shiftr m 8)) in *. set (e7 := byte.of_Z m) in *.
    assert (Hlow : be_combine [e4; e5; e6; e7] = m).
    { change [Byte.x00; Byte.x00; Byte.x00; Byte.x00; e4; e5; e6; e7]
        with ([Byte.x00; Byte.x00; Byte.x00; Byte.x00] ++ [e4; e5; e6; e7]) in Hval.
      rewrite be_combine_app in Hval.
      change (be_combine [Byte.x00; Byte.x00; Byte.x00; Byte.x00]) with 0 in Hval. lia. }
    eexists. split.
    + rewrite (read_frame_hdr_len64 host w b0 b1 _
                 Byte.x00 Byte.x00 Byte.x00 Byte.x00 e4 e5 e6 e7 rest
                 Hrx Hrsv Hclass eq_refl).
      unfold hdr_of. rewrite Hfin, Hop, (mask_bit_value b1 Hbit).
      do 2 f_equal. f_equal. destruct host.
      * rewrite Hval. exact Hm.
      * change [e4; e5; e6; e7; Byte.x00; Byte.x00; Byte.x00; Byte.x00]
          with ([e4; e5; e6; e7] ++ [Byte.x00; Byte.x00; Byte.x00; Byte.x00]).
        rewrite be_combine_app, Hlow.
        change (be_combine [Byte.x00; Byte.x00; Byte.x00; Byte.x00]) with 0.
        change (Zlength [Byte.x00; Byte.x00; Byte.x00; Byte.x00]) with 4.
        rewrite Hm. change (8 * 4) with 32. lia.
    + reflexivity.
Qed.

(** A 70000-byte binary frame on a big-endian host. *)
Lemma header_encode_decode_witness :
  exists w',
    websocket_read_frame_hdr BigEndian
      (init_world [] (base_header BigEndian 2 70000 ++ bytes [1; 2; 3; 4]) 0)
    = (Ret (mk_frame_hdr 128 2 128 (70000 * 2 ^ 32)), w')
    /\ rx (net (ws w')) = bytes [1; 2; 3; 4].
Proof.
  apply (header_encode_decode BigEndian 2 70000
           (init_world [] (base_header BigEndian 2 70000 ++ bytes [1; 2; 3; 4]) 0)
           (bytes [1; 2; 3; 4])); [lia | lia | reflexivity].
Defined.

(** X5: [websocket_send] does not check its opcode argument: the whole
    low byte of [type] is ORed into the first header byte.  A [type] with
    one of bits 4 to 6 set therefore produces a frame whose header
    [websocket_read_frame_hdr] refuses as having a reserved bit set. *)
Theorem send_type_reaches_reserved_bits host type n w rest :
  Z.land (uint8_t type) 0x70 <> 0 ->
  0 <= n ->
  rx (net (ws w)) = base_header host type n ++ rest ->
  fst (websocket_read_frame_hdr host w) = Fail
  /\ stderr (snd (websocket_read_frame_hdr host w))
     = stderr w ++ ["RSVx reserved field, must be 0\n"%string].
Proof.
  intros Htype Hn Hrx.
  assert (Hshape : exists b1 more, base_header host type n
            = byte.of_Z (Z.lor (Z.lor 0 FRAME_FIN) (uint8_t type)) :: b1 :: more).
  { unfold base_header. destruct (n <=? 125); [|destruct (n <=? 0xffff)];
      eexists; eexists; reflexivity. }
  destruct Hshape as (b1 & more & Hbase). rewrite Hbase in Hrx.
  set (b0 := byte.of_Z (Z.lor (Z.lor 0 FRAME_FIN) (uint8_t type))) in *.
  unfold websocket_read_frame_hdr.
  erewrite bind_ret
    by (apply onfail_ret; apply (net_readn_ok 2 w [b0; b1] (more ++ rest));
        [exact Hrx | reflexivity]).
  rewrite reserved_mask. unfold at_; cbn [nth].
  subst b0. rewrite first_byte_reserved.
  destruct (Z.eqb_spec (Z.land (uint8_t type) 0x70) 0) as [E|_]; [contradiction|].
  cbn [negb]. rewrite throw_eq. split; reflexivity.
Qed.

Lemma send_type_reaches_reserved_bits_witness :
  fst (websocket_read_frame_hdr LittleEndian
         (init_world [] (base_header LittleEndian 0x12 3 ++ bytes [0; 0; 0; 0; 1; 2; 3]) 0))
  = Fail
  /\ stderr (snd (websocket_read_frame_hdr LittleEndian
        (init_world [] (base_header LittleEndian 0x12 3 ++ bytes [0; 0; 0; 0; 1; 2; 3]) 0)))
     = [] ++ ["RSVx reserved field, must be 0\n"%string].
Proof.
  apply (send_type_reaches_reserved_bits LittleEndian 0x12 3
           (init_world [] (base_header LittleEndian 0x12 3 ++ bytes [0; 0; 0; 0; 1; 2; 3]) 0)
           (bytes [0; 0; 0; 0; 1; 2; 3])); [vm_compute; discriminate | lia | reflexivity].
Defined.

(** ** Receiving from a transport that runs dry *)

(** X6: a header cut short is a transport failure.  With fewer than two
    bytes to read nothing is consumed; with the two base bytes there but
    the 2 or 8 bytes of the extended length missing, the base bytes are
    consumed.  Each time [websocket_read_frame_hdr] prints the read
    diagnostic and returns -1. *)
Theorem read_frame_hdr_truncated host w :
  (Zlength (rx (net (ws w))) < 2 ->
   websocket_read_frame_hdr host w = (Fail, log "net_readn error\n" w))
  /\ (forall b0 b1 rest,
         rx (net (ws w)) = b0 :: b1 :: rest ->
         Z.land (byte.unsigned b0) 0x70 = 0 ->
         (Z.land (byte.unsigned b1) 0x7f = 126 /\ Zlength rest < 2
          \/ Z.land (byte.unsigned b1) 0x7f = 127 /\ Zlength rest < 8) ->
         websocket_read_frame_hdr host w
         = (Fail, log "net_readn error\n" (after_readn [b0; b1] rest w))).
Proof.
  split.
  - intros Hshort. unfold websocket_read_frame_hdr.
    erewrite bind_fail by (apply onfail_fail, net_readn_short; exact Hshort).
    reflexivity.
  - intros b0 b1 rest Hrx Hrsv Hcase.
    rewrite (read_frame_hdr_base host w b0 b1 rest Hrx Hrsv).
    destruct Hcase as [[HL Hshort]|[HL Hshort]]; rewrite HL; cbn [Z.eqb Pos.eqb].
    + erewrite bind_fail; [reflexivity|].
      erewrite bind_fail; [reflexivity|].
      apply onfail_fail, net_readn_short. exact Hshort.
    + erewrite bind_fail; [reflexivity|].
      erewrite bind_fail; [reflexivity|].
      apply onfail_fail, net_readn_short. exact Hshort.
Qed.

(** Length class 127 followed by only three bytes. *)
Lemma read_frame_hdr_truncated_witness :
  websocket_read_frame_hdr LittleEndian (init_world [] (bytes [0x82; 0x7f; 0; 0; 1]) 0)
  = (Fail, log "net_readn error\n"
             (after_readn (bytes [0x82; 0x7f]) (bytes [0; 0; 1])
                (init_world [] (bytes [0x82; 0x7f; 0; 0; 1]) 0))).
Proof.
  apply (proj2 (read_frame_hdr_truncated LittleEndian
                  (init_world [] (bytes [0x82; 0x7f; 0; 0; 1]) 0))
           (byte.of_Z 0x82) (byte.of_Z 0x7f) (bytes [0; 0; 1]) eq_refl eq_refl).
  right. split; [reflexivity | vm_compute; reflexivity].
Defined.

Lemma skip_loop_chunk_1024 fuel : forall w drained rest,
  remaining_ok w ->
  rx (net (ws w)) = drained ++ rest ->
  Zlength drained = remaining (ws w) ->
  (length drained < fuel)%nat ->
  skip_loop fuel w = (Ret tt, drained_world (List.chunk 1024 drained) rest w).
Proof.
  induction fuel as [|fuel IH]; intros w drained rest Hok Hrx Hlen Hfuel; [lia|].
  rewrite skip_loop_S.
  destruct (Z.ltb_spec 0 (remaining (ws w))) as [Hpos|Hzero].
  - set (r := remaining (ws w)) in *.
    set (n := if 1024 <? r then 1024 else r).
    assert (Hn : 0 < n <= 1024 /\ n <= r /\ (r <= 1024 -> n = r) /\ (1024 < r -> n = 1024))
      by (subst n; destruct (Z.ltb_spec 1024 r); lia).
    set (c := firstn (Z.to_nat n) drained). set (d := skipn (Z.to_nat n) drained).
    assert (Hcd : drained = c ++ d) by (symmetry; apply firstn_skipn).
    assert (Hc : Zlength c = n)
      by (subst c; unfold Zlength in *; rewrite length_firstn; lia).
    assert (Hd : Zlength d = r - n)
      by (subst d; unfold Zlength in *; rewrite length_skipn; lia).
    erewrite bind_ret
      by (apply onfail_ret; apply (net_readn_ok n w c (d ++ rest));
          [rewrite Hrx, Hcd, <- app_assoc; reflexivity | exact Hc]).
    unfold bind at 1, put_remaining. rewrite Hc.
    unfold remaining_ok in Hok. fold r in Hok.
    unfold uint64_t. rewrite Z.mod_small by lia.
    rewrite (IH (set_remaining (r - n) (after_readn c (d ++ rest) w)) d rest);
      [|unfold remaining_ok; cbn; lia|reflexivity|cbn; exact Hd
       |unfold Zlength in *; rewrite Hcd, length_app in Hfuel; lia].
    assert (Hchunk : List.chunk 1024 drained = c :: List.chunk 1024 d).
    { destruct (Z_le_gt_dec r 1024) as [Hle|Hgt].
      - assert (d = []) as -> by (destruct d; [reflexivity|];
            rewrite Zlength_cons in Hd; pose proof (Zlength_nonneg d); lia).
        rewrite Hcd, app_nil_r. cbn [List.chunk]. apply List.chunk_small;
          unfold Zlength in Hc; lia.
      - rewrite Hcd. apply List.chunk_app_chunk; unfold Zlength in Hc; lia. }
    rewrite Hchunk. unfold drained_world, after_readn, set_remaining, set_net; cbn.
    rewrite <- app_assoc. reflexivity.
  - assert (drained = []) as ->.
    { destruct drained; [reflexivity|]. rewrite Zlength_cons in Hlen.
      pose proof (Zlength_nonneg drained). lia. }
    cbn [List.chunk List.chunk']. unfold drained_world, set_remaining, set_net.
    destruct w as [[[rx0 rd0 tx0 cr0] rem0] src0 err0 ty0]; cbn in *.
    rewrite app_nil_r. subst rx0. f_equal. f_equal.
    unfold remaining_ok in Hok; cbn in Hok. f_equal. lia.
Qed.

(** X7: the drain reads in full blocks.  When the transport holds the
    [remaining] bytes, [websocket_skip_remaining] reads them in
    consecutive [net_readn] calls of exactly 1024 bytes, the last one
    taking what is left over, [ceil(remaining / 1024)] calls in all,
    and leaves the counter at 0 and the rest of the stream untouched. *)
Theorem skip_remaining_reads_full_blocks w drained rest :
  remaining_ok w ->
  rx (net (ws w)) = drained ++ rest ->
  Zlength drained = remaining (ws w) ->
  let reads := List.chunk 1024 drained in
  websocket_skip_remaining w = (Ret tt, drained_world reads rest w)
  /\ length reads = ((length drained + 1023) / 1024)%nat
  /\ (forall i, (i < length reads)%nat ->
        nth i reads [] = firstn 1024 (skipn (i * 1024) drained)).
Proof.
  intros Hok Hrx Hlen reads. split; [|split].
  - unfold websocket_skip_remaining. apply skip_loop_chunk_1024; try assumption.
    rewrite Hrx, length_app. lia.
  - subst reads. rewrite List.length_chunk by lia. reflexivity.
  - intros i Hi. subst reads. rewrite List.length_chunk in Hi by lia.
    pose proof (List.nth_error_chunk 1024 ltac:(lia) drained i Hi) as Hnth.
    apply nth_error_nth with (d := []) in Hnth. exact Hnth.
Qed.

(** 2500 pending bytes are read as 1024, 1024 and 452. *)
Lemma skip_remaining_reads_full_blocks_witness :
  map (@length byte)
      (rd (net (ws (snd (websocket_skip_remaining
                           (set_remaining 2500
                              (init_world [] (repeat Byte.x00 2500 ++ bytes [0x81; 0]) 0)))))))
  = [1024; 1024; 452]%nat.
Proof.
  rewrite (proj1 (skip_remaining_reads_full_blocks
                    (set_remaining 2500
                       (init_world [] (repeat Byte.x00 2500 ++ bytes [0x81; 0]) 0))
                    (repeat Byte.x00 2500) (bytes [0x81; 0])
                    ltac:(vm_compute; split; [discriminate | reflexivity])
                    eq_refl ltac:(vm_compute; reflexivity))).
  vm_compute. reflexivity.
Defined.

Lemma skip_loop_starved fuel : forall w,
  remaining_ok w ->
  Zlength (rx (net (ws w))) < remaining (ws w) ->
  (length (rx (net (ws w))) < fuel)%nat ->
  exists consumed left,
    rx (net (ws w)) = consumed ++ left
    /\ Zlength consumed mod 1024 = 0
    /\ Zlength left < 1024
    /\ skip_loop fuel w
       = (Fail,
          log "net_readn error\n"
            (set_remaining (remaining (ws w) - Zlength consumed)
               (drained_world (List.chunk 1024 consumed) left w))).
Proof.
  induction fuel as [|fuel IH]; intros w Hok Hshort Hfuel; [lia|].
  rewrite skip_loop_S.
  pose proof (Zlength_nonneg (rx (net (ws w)))) as Hnn.
  destruct (Z.ltb_spec 0 (remaining (ws w))) as [Hpos|Hzero]; [|lia].
  set (r := remaining (ws w)) in *.
  set (n := if 1024 <? r then 1024 else r).
  assert (Hn : 0 < n <= 1024 /\ n <= r /\ (r <= 1024 -> n = r))
    by (subst n; destruct (Z.ltb_spec 1024 r); lia).
  destruct (net_readn_cases n w) as [(c & d & Hrx & Hc & Hrun)|[Hs Hrun]]; [lia| |].
  - assert (Hn1024 : n = 1024).
    { rewrite Hrx, Zlength_app in Hshort. pose proof (Zlength_nonneg d).
      destruct (Z_le_gt_dec r 1024); [|subst n; destruct (Z.ltb_spec 1024 r); lia].
      lia. }
    rewrite (bind_ret _ _ _ _ _ (onfail_ret _ _ _ _ _ Hrun)).
    unfold bind at 1, put_remaining. rewrite Hc.
    unfold remaining_ok in Hok. fold r in Hok.
    unfold uint64_t. rewrite Z.mod_small by lia.
    destruct (IH (set_remaining (r - n) (after_readn c d w)))
      as (consumed & left & Hrx' & Hmod & Hleft & Hloop).
    + unfold remaining_ok; cbn. lia.
    + cbn. rewrite Hrx, Zlength_app in Hshort. lia.
    + cbn. rewrite Hrx, length_app in Hfuel. unfold Zlength in Hc. lia.
    + cbn [rx net ws set_remaining after_readn set_net] in Hrx'.
      exists (c ++ consumed), left.
      split; [rewrite Hrx, Hrx', app_assoc; reflexivity|].
      split; [rewrite Zlength_app, Hc, Hn1024, Z.add_comm;
              rewrite <- (Z.mul_1_l 1024) at 1; rewrite Z.mod_add by lia; exact Hmod|].
      split; [exact Hleft|].
      rewrite Hloop. f_equal. f_equal.
      rewrite List.chunk_app_chunk by (unfold Zlength in Hc; lia).
      unfold drained_world, after_readn, set_remaining, set_net; cbn.
      rewrite <- app_assoc, Zlength_app, Hc. do 2 f_equal. lia.
  - rewrite (bind_fail _ _ _ _ (onfail_fail _ _ _ _ Hrun)).
    exists [], (rx (net (ws w))).
    split; [reflexivity|]. split; [reflexivity|]. split; [lia|].
    f_equal. f_equal. cbn [List.chunk List.chunk'].
    unfold drained_world, set_remaining, set_net.
    destruct w as [[[rx0 rd0 tx0 cr0] rem0] src0 err0 ty0]; cbn.
    rewrite app_nil_r. do 2 f_equal. change (Zlength (@nil byte)) with 0. lia.
Qed.

(** X8: a remainder the transport cannot supply.  When fewer bytes
    arrive than the counter says are still unread, [websocket_recv]
    fails in the drain: it has consumed full 1024-byte blocks only,
    fewer than 1024 bytes are left unread on the stream, the counter has
    come down by exactly what was consumed, both diagnostics are
    printed and no header is decoded. *)
Theorem recv_fails_when_remainder_is_missing host n w :
  remaining_ok w ->
  Zlength (rx (net (ws w))) < remaining (ws w) ->
  exists consumed w',
    websocket_recv host n w = (Fail, w')
    /\ rx (net (ws w)) = consumed ++ rx (net (ws w'))
    /\ Zlength consumed mod 1024 = 0
    /\ Zlength (rx (net (ws w'))) < 1024
    /\ remaining (ws w') = remaining (ws w) - Zlength consumed
    /\ rd (net (ws w')) = rd (net (ws w)) ++ List.chunk 1024 consumed
    /\ stderr w' = stderr w ++ ["net_readn error\n"%string;
                                "websocket_skip_remaing error\n"%string].
Proof.
  intros Hok Hshort.
  destruct (skip_loop_starved (S (length (rx (net (ws w))))) w Hok Hshort ltac:(lia))
    as (consumed & left & Hrx & Hmod & Hleft & Hloop).
  exists consumed. eexists. split.
  - rewrite websocket_recv_phases. unfold skip_unread.
    pose proof (Zlength_nonneg (rx (net (ws w)))).
    destruct (Z.ltb_spec 0 (remaining (ws w))); [|lia].
    change (skip_loop (S (length (rx (net (ws w))))) w) with (websocket_skip_remaining w)
      in Hloop.
    rewrite (onfail_fail _ _ _ _ Hloop). reflexivity.
  - cbn. rewrite <- app_assoc. repeat (split; [assumption || reflexivity|]). reflexivity.
Qed.

(** 3000 bytes are owed and 2100 arrive: two blocks are consumed. *)
Lemma recv_fails_when_remainder_is_missing_witness :
  exists consumed w',
    websocket_recv LittleEndian 16
      (set_remaining 3000 (init_world [] (repeat Byte.x00 2100) 0)) = (Fail, w')
    /\ repeat Byte.x00 2100 = consumed ++ rx (net (ws w'))
    /\ Zlength consumed mod 1024 = 0
    /\ Zlength (rx (net (ws w'))) < 1024
    /\ remaining (ws w') = 3000 - Zlength consumed
    /\ rd (net (ws w')) = [] ++ List.chunk 1024 consumed
    /\ stderr w' = [] ++ ["net_readn error\n"%string;
                          "websocket_skip_remaing error\n"%string].
Proof.
  apply (recv_fails_when_remainder_is_missing LittleEndian 16
           (set_remaining 3000 (init_world [] (repeat Byte.x00 2100) 0))).
  - vm_compute. split; [discriminate | reflexivity].
  - vm_compute. reflexivity.
Defined.

(** X9: a payload cut short.  When the header is decoded but the
    transport holds fewer than the [min(n, len)] payload bytes the call
    asks for, [websocket_recv] returns -1 with the read diagnostic and
    delivers nothing; the opcode has already been stored through
    [type], the counter has already been set to the whole frame length,
    and the mask key, if there is one, has been consumed. *)
Theorem recv_fails_when_payload_is_missing host n w w1 hdr w2 key rest :
  0 <= n ->
  (if 0 <? remaining (ws w) then websocket_skip_remaining w else (Ret tt, w)) = (Ret tt, w1) ->
  websocket_read_frame_hdr host w1 = (Ret hdr, w2) ->
  fin hdr <> 0 ->
  rx (net (ws w2)) = key ++ rest ->
  Zlength key = (if mask hdr =? 0 then 0 else 4) ->
  Zlength rest < Z.min n (len hdr) ->
  exists w',
    websocket_recv host n w = (Fail, w')
    /\ remaining (ws w') = len hdr
    /\ rx (net (ws w')) = rest
    /\ stderr w' = stderr w2 ++ ["net_readn error\n"%string]
    /\ recv_type w' = Some (opcode hdr).
Proof.
  intros Hn Hskip Hhdr Hfin Hrx Hkey Hshort.
  destruct (read_frame_hdr_keeps _ _ _ _ Hhdr) as [_ Hlen].
  rewrite websocket_recv_phases, (skip_unread_run _ _ Hskip).
  unfold recv_frame. rewrite (bind_ret _ _ _ _ _ (onfail_ret _ _ _ _ _ Hhdr)).
  destruct (Z.eqb_spec (fin hdr) 0) as [|_]; [contradiction|].
  unfold bind at 1, put_type. unfold bind at 1, put_remaining.
  set (w3 := set_remaining (len hdr) (set_type (opcode hdr) w2)).
  assert (Hmin : (if len hdr <? n then len hdr else n) = Z.min n (len hdr))
    by (destruct (Z.ltb_spec (len hdr) n); lia).
  destruct (Z.eqb_spec (mask hdr) 0) as [Hm|Hm]; cbn [negb].
  - assert (key = []) as ->.
    { destruct key; [reflexivity|]. rewrite Zlength_cons in Hkey.
      pose proof (Zlength_nonneg key). lia. }
    unfold bind at 1, ret at 1. unfold bind at 1, get_remaining.
    cbn [remaining ws w3 set_remaining]. rewrite Hmin.
    erewrite bind_fail
      by (apply onfail_fail, net_readn_short; cbn; rewrite Hrx; exact Hshort).
    eexists. split; [reflexivity|]. cbn. rewrite Hrx. repeat split.
  - erewrite bind_ret.
    2:{ erewrite bind_ret; [reflexivity|].
        apply onfail_ret. apply (net_readn_ok 4 w3 key rest); [exact Hrx | exact Hkey]. }
    unfold ret at 1. unfold bind at 1, get_remaining.
    cbn [remaining ws w3 set_remaining after_readn set_net]. rewrite Hmin.
    erewrite bind_fail by (apply onfail_fail, net_readn_short; cbn; exact Hshort).
    eexists. split; [reflexivity|]. cbn. repeat split.
Qed.

(** A masked frame announcing 5 bytes of which 2 arrive. *)
Lemma recv_fails_when_payload_is_missing_witness :
  exists w',
    websocket_recv LittleEndian 16
      (init_world [] (bytes [0x81; 0x85; 1; 2; 3; 4; 0x40; 0x40]) 0) = (Fail, w')
    /\ remaining (ws w') = 5
    /\ rx (net (ws w')) = bytes [0x40; 0x40]
    /\ stderr w' = [] ++ ["net_readn error\n"%string]
    /\ recv_type w' = Some 1.
Proof.
  apply (recv_fails_when_payload_is_missing LittleEndian 16
           (init_world [] (bytes [0x81; 0x85; 1; 2; 3; 4; 0x40; 0x40]) 0)
           (init_world [] (bytes [0x81; 0x85; 1; 2; 3; 4; 0x40; 0x40]) 0)
           (mk_frame_hdr 128 1 128 5)
           (after_readn (bytes [0x81; 0x85]) (bytes [1; 2; 3; 4; 0x40; 0x40])
              (init_world [] (bytes [0x81; 0x85; 1; 2; 3; 4; 0x40; 0x40]) 0))
           (bytes [1; 2; 3; 4]) (bytes [0x40; 0x40]));
    try reflexivity; try lia; discriminate.
Defined.

(** X10: what a successful receive hands over.  Once a header with FIN
    set is decoded and the transport holds the bytes, a call for which
    [min(n, len)] is at most [INT_MAX] returns that number, the header's
    opcode and exactly [min(n, len)] bytes: the bytes that follow the
    header, or follow the 4-byte key when the mask bit is set, exactly
    as they are on the wire.  The stream stands right after them and
    the counter holds what is left of the frame. *)
Theorem recv_delivers_wire_bytes host n w w1 hdr w2 key data rest :
  0 <= n ->
  Z.min n (len hdr) <= INT_MAX ->
  (if 0 <? remaining (ws w) then websocket_skip_remaining w else (Ret tt, w)) = (Ret tt, w1) ->
  websocket_read_frame_hdr host w1 = (Ret hdr, w2) ->
  fin hdr <> 0 ->
  rx (net (ws w2)) = key ++ data ++ rest ->
  Zlength key = (if mask hdr =? 0 then 0 else 4) ->
  Zlength data = Z.min n (len hdr) ->
  let w' := snd (websocket_recv host n w) in
  fst (websocket_recv host n w) = Ret (Z.min n (len hdr), opcode hdr, data)
  /\ rx (net (ws w')) = rest
  /\ remaining (ws w') = len hdr - Z.min n (len hdr)
  /\ tx (net (ws w')) = tx (net (ws w2))
  /\ stderr w' = stderr w2.
Proof.
  intros Hn Hint Hskip Hhdr Hfin Hrx Hkey Hdata w'. subst w'.
  rewrite (websocket_recv_delivers host n w w1 hdr w2 key data rest) by assumption.
  rewrite Hdata. destruct (mask hdr =? 0); cbn; repeat split.
Qed.

(** An unmasked 5-byte text frame read into a 3-byte buffer. *)
Lemma recv_delivers_wire_bytes_witness :
  let w := init_world [] (bytes [0x81; 0x05; 0x41; 0x42; 0x43; 0x44; 0x45; 0x99]) 0 in
  fst (websocket_recv LittleEndian 3 w) = Ret (Z.min 3 5, 1, bytes [0x41; 0x42; 0x43])
  /\ rx (net (ws (snd (websocket_recv LittleEndian 3 w)))) = bytes [0x44; 0x45; 0x99]
  /\ remaining (ws (snd (websocket_recv LittleEndian 3 w))) = 5 - Z.min 3 5
  /\ tx (net (ws (snd (websocket_recv LittleEndian 3 w)))) = []
  /\ stderr (snd (websocket_recv LittleEndian 3 w)) = [].
Proof.
  apply (recv_delivers_wire_bytes LittleEndian 3
           (init_world [] (bytes [0x81; 0x05; 0x41; 0x42; 0x43; 0x44; 0x45; 0x99]) 0)
           (init_world [] (bytes [0x81; 0x05; 0x41; 0x42; 0x43; 0x44; 0x45; 0x99]) 0)
           (mk_frame_hdr 128 1 0 5)
           (after_readn (bytes [0x81; 0x05]) (bytes [0x41; 0x42; 0x43; 0x44; 0x45; 0x99])
              (init_world [] (bytes [0x81; 0x05; 0x41; 0x42; 0x43; 0x44; 0x45; 0x99]) 0))
           [] (bytes [0x41; 0x42; 0x43]) (bytes [0x44; 0x45; 0x99]));
    try reflexivity; try lia; discriminate.
Defined.

(** ** Handshake: after the status line *)

Lemma starts_with_true needle hay :
  starts_with needle hay = true -> exists post, hay = needle ++ post.
Proof.
  unfold starts_with. intros H. apply bytes_eqb_eq in H.
  exists (skipn (length needle) hay). rewrite H at 1. symmetry. apply firstn_skipn.
Qed.

Lemma strstr_none hay needle :
  (forall pre post, hay <> pre ++ needle ++ post) -> strstr hay needle = None.
Proof.
  induction hay as [|a hay IH]; intros Hno.
  - cbn [strstr]. destruct (starts_with needle []) eqn:E; [|reflexivity].
    apply starts_with_true in E. destruct E as [post E].
    exfalso. apply (Hno [] post). exact E.
  - cbn [strstr]. destruct (starts_with needle (a :: hay)) eqn:E.
    + apply starts_with_true in E. destruct E as [post E].
      exfalso. apply (Hno [] post). exact E.
    + rewrite IH; [reflexivity|]. intros pre post Heq.
      apply (Hno (a :: pre) post). rewrite Heq. reflexivity.
Qed.

Lemma c_str_in_buffer size resp : c_str (in_buffer size resp) = c_str resp.
Proof.
  unfold in_buffer. induction resp as [|b resp IH]; cbn [app c_str].
  - destruct (size - length (@nil byte))%nat; reflexivity.
  - destruct (Byte.eqb b Byte.x00); [reflexivity|].
    cbn [length]. f_equal.
    replace (size - S (length resp))%nat with ((size - 1) - length resp)%nat by lia.
    clear IH. generalize (size - 1 - length resp)%nat. intros k.
    induction resp as [|c resp IH]; cbn [app c_str].
    + destruct k; reflexivity.
    + destruct (Byte.eqb c Byte.x00); [reflexivity | f_equal; exact IH].
Qed.

Lemma memcmp_status_line_ok resp :
  firstn 32 resp = status_line ->
  memcmp_eq (in_buffer 4096 resp) status_line 32 = true.
Proof.
  intros H. unfold memcmp_eq, in_buffer. apply bytes_eqb_eq.
  change (firstn (Z.to_nat 32) status_line) with status_line.
  change (Z.to_nat 32) with 32%nat.
  assert (Hlen : (32 <= length resp)%nat).
  { apply (f_equal (@length byte)) in H. rewrite length_firstn in H.
    change (length status_line) with 32%nat in H. lia. }
  rewrite firstn_app. replace (32 - length resp)%nat with 0%nat by lia.
  rewrite firstn_O, app_nil_r. exact H.
Qed.

Section HandshakeVerdict.
Variable enc : Z -> list byte -> option (list byte).
Variable sha : list byte -> list byte.
Variables host path : list byte.
Variable w : world.
Variables ws_key ac_key : list byte.

Let resp := firstn 4095 (rx (net (ws w))).
Let buf := in_buffer 4096 resp.

(** The handshake gets as far as the response, the status line is right
    and the accept value is computed. *)
Hypothesis Henc : enc 128 (random_bytes 16 (xrand_src w)) = Some ws_key.
Hypothesis Hfit : Zlength (request host path ws_key) < 4096.
Hypothesis Hcredit : (0 < tx_credit (net (ws w)))%nat.
Hypothesis Hrx : rx (net (ws w)) <> [].
Hypothesis Hstatus : firstn 32 resp = status_line.
Hypothesis Hkey : Zlength (c_str ws_key) < 220.
Hypothesis Hac : enc 128 (sha (c_str ws_key ++ str WEBSOCKET_GUID)) = Some ac_key.

Lemma handshake_verdict :
  websocket_handshake enc sha host path w
  = match strstr (c_str resp) accept_header with
    | None =>
      (Fail,
       log (String.append
              "the handshake failed and the required Sec-WebSocket-Accept was not found: "
              (String.append (show buf) "\n"))
           (after_response host path w ws_key))
    | Some p =>
      if memcmp_eq (skipn (p + 22) buf) ac_key (Zlength ac_key)
      then (Ret tt, after_response host path w ws_key)
      else (Fail,
            log (String.append "Sec-WebSocket-Accept verification failed: "
                   (String.append (show buf) "\n"))
                (after_response host path w ws_key))
    end.
Proof.
  unfold websocket_handshake.
  erewrite bind_ret
    by (apply onfail_ret; rewrite generate_websocket_key_run, Henc; reflexivity).
  fold (request host path ws_key).
  assert (Hpos : 0 < Zlength (request host path ws_key)).
  { unfold request. rewrite Zlength_app. pose proof (Zlength_nonneg
      (c_str path ++ str " HTTP/1.1" ++ crlf ++ str "Host: " ++ c_str host ++ crlf
       ++ str "Upgrade: websocket" ++ crlf ++ str "Connection: Upgrade" ++ crlf
       ++ str "Sec-WebSocket-Key: " ++ c_str ws_key ++ crlf
       ++ str "Sec-WebSocket-Version: " ++ str WEBSOCKET_VERSION ++ crlf ++ crlf)).
    change (Zlength (str "GET ")) with 4. lia. }
  destruct (Z.leb_spec (Zlength (request host path ws_key)) 0); [lia|].
  destruct (Z.leb_spec 4096 (Zlength (request host path ws_key))); [lia|].
  cbn [orb].
  erewrite bind_ret by (apply onfail_ret, net_write_ok; cbn; exact Hcredit).
  assert (Hread : net_read (4096 - 1) (after_writes [request host path ws_key] (after_xrand 16 w))
                  = (Ret resp, after_response host path w ws_key)).
  { unfold net_read, after_response. subst resp.
    cbn [after_writes after_xrand set_net net ws rx].
    destruct (rx (net (ws w))) eqn:E; [congruence | reflexivity]. }
  rewrite (bind_ret _ _ _ _ _ (onfail_ret _ _ _ _ _ Hread)).
  cbv zeta. fold status_line. fold accept_header.
  rewrite (memcmp_status_line_ok resp Hstatus). cbn [negb]. fold buf.
  assert (Hgen : generate_websocket_accept enc sha ws_key (after_response host path w ws_key)
                 = (Ret ac_key, after_response host path w ws_key)).
  { unfold generate_websocket_accept. cbv zeta.
    rewrite Zlength_app. change (Zlength (str WEBSOCKET_GUID)) with 36.
    pose proof (Zlength_nonneg (c_str ws_key)).
    destruct (Z.leb_spec (Zlength (c_str ws_key) + 36) 0); [lia|].
    destruct (Z.leb_spec 256 (Zlength (c_str ws_key) + 36)); [lia|].
    cbn [orb]. rewrite Hac. reflexivity. }
  rewrite (bind_ret _ _ _ _ _ (onfail_ret _ _ _ _ _ Hgen)).
  unfold buf at 1. rewrite c_str_in_buffer.
  destruct (strstr (c_str resp) accept_header) as [p|]; [|reflexivity].
  destruct (memcmp_eq (skipn (p + 22) buf) ac_key (Zlength ac_key)); reflexivity.
Qed.

End HandshakeVerdict.

Lemma starts_with_app needle post : starts_with needle (needle ++ post) = true.
Proof.
  unfold starts_with. apply bytes_eqb_eq.
  rewrite firstn_app, Nat.sub_diag, firstn_all, firstn_O, app_nil_r. reflexivity.
Qed.

Lemma strstr_occurrence needle post :
  forall pre, strstr (pre ++ needle ++ post) needle <> None.
Proof.
  assert (H0 : strstr (needle ++ post) needle = Some O).
  { destruct (needle ++ post) eqn:E; cbn [strstr]; rewrite <- E, starts_with_app;
      reflexivity. }
  induction pre as [|a pre IH]; cbn [app].
  - rewrite H0. discriminate.
  - cbn [strstr]. destruct (starts_with needle (a :: pre ++ needle ++ post)); [discriminate|].
    destruct (strstr (pre ++ needle ++ post) needle); [discriminate|].
    exfalso. apply IH. reflexivity.
Qed.

Lemma strstr_none_inv hay needle :
  strstr hay needle = None -> forall pre post, hay <> pre ++ needle ++ post.
Proof.
  intros Hnone pre post Heq. subst hay. exact (strstr_occurrence needle post pre Hnone).
Qed.

(** X11: a response without the accept header.  When the status line is
    right but the text of the response (up to its first NUL) nowhere
    contains "Sec-WebSocket-Accept: ", the handshake fails with the
    not-found diagnostic. *)
Theorem handshake_requires_accept_header enc sha host path w ws_key ac_key :
  let resp := firstn 4095 (rx (net (ws w))) in
  enc 128 (random_bytes 16 (xrand_src w)) = Some ws_key ->
  Zlength (request host path ws_key) < 4096 ->
  (0 < tx_credit (net (ws w)))%nat ->
  rx (net (ws w)) <> [] ->
  firstn 32 resp = status_line ->
  Zlength (c_str ws_key) < 220 ->
  enc 128 (sha (c_str ws_key ++ str WEBSOCKET_GUID)) = Some ac_key ->
  (forall pre post, c_str resp <> pre ++ accept_header ++ post) ->
  websocket_handshake enc sha host path w
  = (Fail,
     log (String.append
            "the handshake failed and the required Sec-WebSocket-Accept was not found: "
            (String.append (show (in_buffer 4096 resp)) "\n"))
         (after_response host path w ws_key)).
Proof.
  intros resp Henc Hfit Hcredit Hrx Hstatus Hkey Hac Hno.
  rewrite (handshake_verdict enc sha host path w ws_key ac_key) by assumption.
  fold resp. rewrite (strstr_none _ _ Hno). reflexivity.
Qed.

(** The header name in lower case is not found. *)
Lemma handshake_requires_accept_header_witness :
  fst (websocket_handshake base64_encode sha1 (str "example.com") (str "/chat")
         (init_world []
            (status_line ++ crlf
             ++ str "sec-websocket-accept: ICX+Yqv66kxgM0FcWaLWlFLwTAI=" ++ crlf ++ crlf) 1))
  = Fail.
Proof.
  rewrite (handshake_requires_accept_header base64_encode sha1
             (str "example.com") (str "/chat")
             (init_world []
                (status_line ++ crlf
                 ++ str "sec-websocket-accept: ICX+Yqv66kxgM0FcWaLWlFLwTAI=" ++ crlf ++ crlf) 1)
             (str "AAAAAAAAAAAAAAAAAAAAAA==") (str "ICX+Yqv66kxgM0FcWaLWlFLwTAI=")).
  - reflexivity.
  - vm_compute. reflexivity.
  - vm_compute. reflexivity.
  - vm_compute. lia.
  - vm_compute. discriminate.
  - vm_compute. reflexivity.
  - vm_compute. reflexivity.
  - vm_compute. reflexivity.
  - apply strstr_none_inv. vm_compute. reflexivity.
Defined.

(** X12: the accept value is compared at the first occurrence of the
    header name only, and only over the length of the expected value.
    When the response reads [pre], "Sec-WebSocket-Accept: ", the expected
    value and then anything at all, and the name does not occur earlier,
    the handshake succeeds: what follows the value is not looked at. *)
Theorem handshake_accepts_value_prefix enc sha host path w ws_key ac_key pre post :
  let resp := firstn 4095 (rx (net (ws w))) in
  enc 128 (random_bytes 16 (xrand_src w)) = Some ws_key ->
  Zlength (request host path ws_key) < 4096 ->
  (0 < tx_credit (net (ws w)))%nat ->
  rx (net (ws w)) <> [] ->
  firstn 32 resp = status_line ->
  Zlength (c_str ws_key) < 220 ->
  enc 128 (sha (c_str ws_key ++ str WEBSOCKET_GUID)) = Some ac_key ->
  resp = pre ++ accept_header ++ ac_key ++ post ->
  strstr (c_str resp) accept_header = Some (length pre) ->
  websocket_handshake enc sha host path w = (Ret tt, after_response host path w ws_key).
Proof.
  intros resp Henc Hfit Hcredit Hrx Hstatus Hkey Hac Hresp Hfound.
  rewrite (handshake_verdict enc sha host path w ws_key ac_key) by assumption.
  fold resp. rewrite Hfound.
  replace (memcmp_eq (skipn (length pre + 22) (in_buffer 4096 resp)) ac_key (Zlength ac_key))
    with true; [reflexivity|].
  symmetry. unfold memcmp_eq, in_buffer. apply bytes_eqb_eq.
  unfold Zlength. rewrite Nat2Z.id, firstn_all.
  rewrite Hresp, <- !app_assoc.
  rewrite skipn_app, skipn_all2 by lia.
  replace (length pre + 22 - length pre)%nat with (length accept_header)
    by (change (length accept_header) with 22%nat; lia).
  cbn [app]. rewrite skipn_app, skipn_all, Nat.sub_diag. cbn [app skipn].
  rewrite firstn_app, Nat.sub_diag, firstn_all, firstn_O, app_nil_r. reflexivity.
Qed.

(** The right value followed by junk instead of the end of the line. *)
Lemma handshake_accepts_value_prefix_witness :
  fst (websocket_handshake base64_encode sha1 (str "example.com") (str "/chat")
         (init_world []
            ((status_line ++ crlf) ++ accept_header
             ++ str "ICX+Yqv66kxgM0FcWaLWlFLwTAI=" ++ str "junk") 1))
  = Ret tt.
Proof.
  rewrite (handshake_accepts_value_prefix base64_encode sha1
             (str "example.com") (str "/chat")
             (init_world []
                ((status_line ++ crlf) ++ accept_header
                 ++ str "ICX+Yqv66kxgM0FcWaLWlFLwTAI=" ++ str "junk") 1)
             (str "AAAAAAAAAAAAAAAAAAAAAA==") (str "ICX+Yqv66kxgM0FcWaLWlFLwTAI=")
             (status_line ++ crlf) (str "junk")).
  - reflexivity.
  - vm_compute. reflexivity.
  - vm_compute. reflexivity.
  - vm_compute. lia.
  - vm_compute. discriminate.
  - vm_compute. reflexivity.
  - vm_compute. reflexivity.
  - vm_compute. reflexivity.
  - vm_compute. reflexivity.
  - vm_compute. reflexivity.
Defined.

(** X13: a wrong accept value.  When the bytes after the first
    occurrence of the header name do not begin with the expected value,
    the handshake fails with the verification diagnostic, even if the
    right value stands behind a later occurrence of the name. *)
Theorem handshake_rejects_accept_mismatch enc sha host path w ws_key ac_key p :
  let resp := firstn 4095 (rx (net (ws w))) in
  enc 128 (random_bytes 16 (xrand_src w)) = Some ws_key ->
  Zlength (request host path ws_key) < 4096 ->
  (0 < tx_credit (net (ws w)))%nat ->
  rx (net (ws w)) <> [] ->
  firstn 32 resp = status_line ->
  Zlength (c_str ws_key) < 220 ->
  enc 128 (sha (c_str ws_key ++ str WEBSOCKET_GUID)) = Some ac_key ->
  strstr (c_str resp) accept_header = Some p ->
  firstn (length ac_key) (skipn (p + 22) (in_buffer 4096 resp)) <> ac_key ->
  websocket_handshake enc sha host path w
  = (Fail,
     log (String.append "Sec-WebSocket-Accept verification failed: "
            (String.append (show (in_buffer 4096 resp)) "\n"))
         (after_response host path w ws_key)).
Proof.
  intros resp Henc Hfit Hcredit Hrx Hstatus Hkey Hac Hfound Hdiff.
  rewrite (handshake_verdict enc sha host path w ws_key ac_key) by assumption.
  fold resp. rewrite Hfound.
  destruct (memcmp_eq (skipn (p + 22) (in_buffer 4096 resp)) ac_key (Zlength ac_key)) eqn:E;
    [|reflexivity].
  exfalso. apply Hdiff. unfold memcmp_eq in E. apply bytes_eqb_eq in E.
  unfold Zlength in E. rewrite Nat2Z.id in E. rewrite E. apply firstn_all.
Qed.

(** Two accept headers, the first one wrong and the second one right. *)
Lemma handshake_rejects_accept_mismatch_witness :
  fst (websocket_handshake base64_encode sha1 (str "example.com") (str "/chat")
         (init_world []
            (status_line ++ crlf
             ++ accept_header ++ str "s3pPLMBiTxaQ9kYGzzhZRbK+xOo=" ++ crlf
             ++ accept_header ++ str "ICX+Yqv66kxgM0FcWaLWlFLwTAI=" ++ crlf ++ crlf) 1))
  = Fail.
Proof.
  rewrite (handshake_rejects_accept_mismatch base64_encode sha1
             (str "example.com") (str "/chat")
             (init_world []
                (status_line ++ crlf
                 ++ accept_header ++ str "s3pPLMBiTxaQ9kYGzzhZRbK+xOo=" ++ crlf
                 ++ accept_header ++ str "ICX+Yqv66kxgM0FcWaLWlFLwTAI=" ++ crlf ++ crlf) 1)
             (str "AAAAAAAAAAAAAAAAAAAAAA==") (str "ICX+Yqv66kxgM0FcWaLWlFLwTAI=") 34).
  - reflexivity.
  - vm_compute. reflexivity.
  - vm_compute. reflexivity.
  - vm_compute. lia.
  - vm_compute. discriminate.
  - vm_compute. reflexivity.
  - vm_compute. reflexivity.
  - vm_compute. reflexivity.
  - vm_compute. reflexivity.
  - vm_compute. discriminate.
Defined.

(** ** Handshake: failures before the response *)

Lemma Zlength_request host path ws_key :
  Zlength (request host path ws_key)
  = 114 + Zlength (c_str path) + Zlength (c_str host) + Zlength (c_str ws_key).
Proof.
  unfold request. rewrite !Zlength_app.
  repeat match goal with
         | |- context [Zlength (str ?s)] =>
           let v := eval vm_compute in (Zlength (str s)) in
           change (Zlength (str s)) with v
         end.
  change (Zlength crlf) with 2. lia.
Qed.

(** X14: the request has to fit the 4096-byte buffer with its
    terminator.  The fixed text of the request takes 114 bytes; when
    path, host and key together take 3982 bytes or more, the handshake
    prints the snprintf diagnostic and returns -1 after the key was
    drawn, before anything is written or read. *)
Theorem handshake_rejects_long_request enc sha host path w ws_key :
  enc 128 (random_bytes 16 (xrand_src w)) = Some ws_key ->
  3982 <= Zlength (c_str path) + Zlength (c_str host) + Zlength (c_str ws_key) ->
  websocket_handshake enc sha host path w = (Fail, log "snprintf error\n" (after_xrand 16 w)).
Proof.
  intros Henc Hlong. unfold websocket_handshake.
  erewrite bind_ret
    by (apply onfail_ret; rewrite generate_websocket_key_run, Henc; reflexivity).
  fold (request host path ws_key). rewrite Zlength_request.
  destruct (Z.leb_spec 4096
              (114 + Zlength (c_str path) + Zlength (c_str host) + Zlength (c_str ws_key)));
    [|lia].
  rewrite orb_true_r. apply throw_eq.
Qed.

(** A path of 3950 bytes with an 11-byte host and the 24-byte key. *)
Lemma handshake_rejects_long_request_witness :
  let w := init_world [] status_line 1 in
  let w' := snd (websocket_handshake base64_encode sha1 (str "example.com")
                   (repeat Byte.x61 3950) w) in
  tx (net (ws w')) = [] /\ rx (net (ws w')) = status_line
  /\ stderr w' = ["snprintf error\n"%string].
Proof.
  cbv zeta.
  rewrite (handshake_rejects_long_request base64_encode sha1 (str "example.com")
             (repeat Byte.x61 3950) (init_world [] status_line 1)
             (str "AAAAAAAAAAAAAAAAAAAAAA==")).
  - repeat split.
  - vm_compute. reflexivity.
  - vm_compute. discriminate.
Defined.

(** X15: a link that refuses the request.  The handshake prints the
    write diagnostic and returns -1; nothing is read. *)
Theorem handshake_fails_when_write_refused enc sha host path w ws_key :
  enc 128 (random_bytes 16 (xrand_src w)) = Some ws_key ->
  Zlength (request host path ws_key) < 4096 ->
  tx_credit (net (ws w)) = 0%nat ->
  websocket_handshake enc sha host path w
  = (Fail, log "net_write error\n" (after_xrand 16 w)).
Proof.
  intros Henc Hfit Hcredit. unfold websocket_handshake.
  erewrite bind_ret
    by (apply onfail_ret; rewrite generate_websocket_key_run, Henc; reflexivity).
  fold (request host path ws_key).
  pose proof (Zlength_request host path ws_key) as Hlen.
  pose proof (Zlength_nonneg (c_str path)). pose proof (Zlength_nonneg (c_str host)).
  pose proof (Zlength_nonneg (c_str ws_key)).
  destruct (Z.leb_spec (Zlength (request host path ws_key)) 0); [lia|].
  destruct (Z.leb_spec 4096 (Zlength (request host path ws_key))); [lia|].
  cbn [orb].
  erewrite bind_fail by (apply onfail_fail, net_write_refused; exact Hcredit).
  reflexivity.
Qed.

Lemma handshake_fails_when_write_refused_witness :
  let w := init_world [] status_line 0 in
  let w' := snd (websocket_handshake base64_encode sha1 (str "example.com") (str "/chat") w) in
  tx (net (ws w')) = [] /\ rx (net (ws w')) = status_line
  /\ stderr w' = ["net_write error\n"%string].
Proof.
  cbv zeta.
  rewrite (handshake_fails_when_write_refused base64_encode sha1 (str "example.com")
             (str "/chat") (init_world [] status_line 0) (str "AAAAAAAAAAAAAAAAAAAAAA==")).
  - repeat split.
  - vm_compute. reflexivity.
  - vm_compute. reflexivity.
  - reflexivity.
Defined.

(** X16: a peer that sends nothing.  The request goes out in one write,
    then the handshake prints the read diagnostic and returns -1. *)
Theorem handshake_fails_when_peer_silent enc sha host path w ws_key :
  enc 128 (random_bytes 16 (xrand_src w)) = Some ws_key ->
  Zlength (request host path ws_key) < 4096 ->
  (0 < tx_credit (net (ws w)))%nat ->
  rx (net (ws w)) = [] ->
  websocket_handshake enc sha host path w
  = (Fail, log "net_read error\n"
             (after_writes [request host path ws_key] (after_xrand 16 w))).
Proof.
  intros Henc Hfit Hcredit Hrx. unfold websocket_handshake.
  erewrite bind_ret
    by (apply onfail_ret; rewrite generate_websocket_key_run, Henc; reflexivity).
  fold (request host path ws_key).
  pose proof (Zlength_request host path ws_key) as Hlen.
  pose proof (Zlength_nonneg (c_str path)). pose proof (Zlength_nonneg (c_str host)).
  pose proof (Zlength_nonneg (c_str ws_key)).
  destruct (Z.leb_spec (Zlength (request host path ws_key)) 0); [lia|].
  destruct (Z.leb_spec 4096 (Zlength (request host path ws_key))); [lia|].
  cbn [orb].
  erewrite bind_ret by (apply onfail_ret, net_write_ok; cbn; exact Hcredit).
  erewrite bind_fail; [reflexivity|].
  apply onfail_fail. unfold net_read.
  cbn [after_writes after_xrand set_net net ws rx]. rewrite Hrx. reflexivity.
Qed.

Lemma handshake_fails_when_peer_silent_witness :
  let w := init_world [] [] 1 in
  let w' := snd (websocket_handshake base64_encode sha1 (str "example.com") (str "/chat") w) in
  tx (net (ws w')) = [request (str "example.com") (str "/chat") (str "AAAAAAAAAAAAAAAAAAAAAA==")]
  /\ stderr w' = ["net_read error\n"%string].
Proof.
  cbv zeta.
  rewrite (handshake_fails_when_peer_silent base64_encode sha1 (str "example.com")
             (str "/chat") (init_world [] [] 1) (str "AAAAAAAAAAAAAAAAAAAAAA==")).
  - repeat split.
  - vm_compute. reflexivity.
  - vm_compute. reflexivity.
  - vm_compute. lia.
  - reflexivity.
Defined.

(** ** Handshake: what every run leaves behind *)

(** [generate_websocket_accept] touches nothing but [stderr], where a
    failure leaves one line. *)
Lemma generate_websocket_accept_world enc sha ws_key w :
  (exists ac_key, generate_websocket_accept enc sha ws_key w = (Ret ac_key, w))
  \/ (exists msg, generate_websocket_accept enc sha ws_key w = (Fail, log msg w)).
Proof.
  unfold generate_websocket_accept. cbv zeta.
  destruct (_ || _).
  - right. eexists. apply throw_eq.
  - destruct (enc 128 _) as [ac_key|].
    + left. exists ac_key. reflexivity.
    + right. eexists. apply throw_eq.
Qed.

Lemma net_read_none max w : rx (net (ws w)) = [] -> net_read max w = (Fail, w).
Proof. intros H. unfold net_read. cbv zeta. rewrite H. reflexivity. Qed.

Lemma net_read_some max w :
  rx (net (ws w)) <> [] ->
  net_read max w
  = (Ret (firstn (Z.to_nat max) (rx (net (ws w)))),
     set_net (fun h => mk_net (skipn (Z.to_nat max) (rx h)) (rd h) (tx h) (tx_credit h)) w).
Proof.
  intros H. unfold net_read. cbv zeta.
  destruct (rx (net (ws w))); [congruence | reflexivity].
Qed.

Lemma handshake_leaves enc sha host path w :
  let r := fst (websocket_handshake enc sha host path w) in
  let w' := snd (websocket_handshake enc sha host path w) in
  remaining (ws w') = remaining (ws w)
  /\ rd (net (ws w')) = rd (net (ws w))
  /\ xrand_src w' = skipn 16 (xrand_src w)
  /\ (exists out, tx (net (ws w')) = tx (net (ws w)) ++ out /\ (length out <= 1)%nat)
  /\ (exists k, rx (net (ws w')) = skipn k (rx (net (ws w))) /\ (k <= 4095)%nat)
  /\ match r with
     | Ret _ => stderr w' = stderr w
     | Fail => exists msgs, stderr w' = stderr w ++ msgs /\ (1 <= length msgs <= 2)%nat
     end.
Proof.
  cbv zeta.
  pose (P := fun (x : result unit * world) =>
    let r := fst x in
    let w' := snd x in
    remaining (ws w') = remaining (ws w)
    /\ rd (net (ws w')) = rd (net (ws w))
    /\ xrand_src w' = skipn 16 (xrand_src w)
    /\ (exists out, tx (net (ws w')) = tx (net (ws w)) ++ out /\ (length out <= 1)%nat)
    /\ (exists k, rx (net (ws w')) = skipn k (rx (net (ws w))) /\ (k <= 4095)%nat)
    /\ match r with
       | Ret _ => stderr w' = stderr w
       | Fail => exists msgs, stderr w' = stderr w ++ msgs /\ (1 <= length msgs <= 2)%nat
       end).
  change (P (websocket_handshake enc sha host path w)).
  assert (Hleaf : forall (r : result unit) wf out k msgs,
            remaining (ws wf) = remaining (ws w) ->
            rd (net (ws wf)) = rd (net (ws w)) ->
            xrand_src wf = skipn 16 (xrand_src w) ->
            tx (net (ws wf)) = tx (net (ws w)) ++ out -> (length out <= 1)%nat ->
            rx (net (ws wf)) = skipn k (rx (net (ws w))) -> (k <= 4095)%nat ->
            stderr wf = stderr w ++ msgs ->
            match r with Ret _ => msgs = [] | Fail => (1 <= length msgs <= 2)%nat end ->
            P (r, wf)).
  { intros r wf out k msgs E1 E2 E3 E4 L4 E5 L5 E6 L6. unfold P. cbn [fst snd].
    split; [exact E1|]. split; [exact E2|]. split; [exact E3|].
    split; [exists out; split; assumption|].
    split; [exists k; split; assumption|].
    destruct r.
    - rewrite E6, L6. apply app_nil_r.
    - exists msgs. split; assumption. }
  clearbody P.
  unfold websocket_handshake.
  unfold bind at 1. unfold onfail at 1. rewrite generate_websocket_key_run.
  destruct (enc 128 (random_bytes 16 (xrand_src w))) as [ws_key|].
  2: { apply (Hleaf _ _ [] 0%nat
                ["mbedtls_base64_encode error\n"%string;
                 "generate_websocket_key error\n"%string]);
         try reflexivity; try (cbn [length]; lia).
       - symmetry. apply app_nil_r.
       - cbn [log stderr after_xrand]. rewrite <- app_assoc. reflexivity. }
  fold (request host path ws_key).
  destruct (_ || _).
  { rewrite throw_eq. apply (Hleaf _ _ [] 0%nat ["snprintf error\n"%string]);
      try reflexivity; try (cbn [length]; lia).
    symmetry. apply app_nil_r. }
  destruct (tx_credit (net (ws w))) as [|c] eqn:Ec.
  { erewrite bind_fail by (apply onfail_fail, net_write_refused; exact Ec).
    apply (Hleaf _ _ [] 0%nat ["net_write error\n"%string]);
      try reflexivity; try (cbn [length]; lia).
    symmetry. apply app_nil_r. }
  erewrite bind_ret by (apply onfail_ret, net_write_ok; cbn; lia).
  assert (Hrx : rx (net (ws w)) = [] \/ rx (net (ws w)) <> [])
    by (destruct (rx (net (ws w))); [left; reflexivity | right; discriminate]).
  destruct Hrx as [Hrx|Hrx].
  { erewrite bind_fail by (apply onfail_fail, net_read_none; exact Hrx).
    apply (Hleaf _ _ [request host path ws_key] 0%nat ["net_read error\n"%string]);
      try reflexivity; try (cbn [length]; lia). }
  erewrite bind_ret by (apply onfail_ret, net_read_some; exact Hrx).
  cbv zeta. change (Z.to_nat (4096 - 1)) with 4095%nat.
  fold (after_response host path w ws_key).
  set (w2 := after_response host path w ws_key).
  assert (Hfail : forall msgs wf,
            (1 <= length msgs <= 2)%nat -> wf = mk_world (ws w2) (xrand_src w2) (stderr w ++ msgs) (recv_type w2) ->
            P (Fail, wf)).
  { intros msgs wf Hm ->.
    apply (Hleaf _ _ [request host path ws_key] 4095%nat msgs);
      try reflexivity; try assumption; try (cbn [length]; lia). }
  destruct (negb _).
  { rewrite throw_eq. eapply (Hfail [_]); [cbn [length]; lia | reflexivity]. }
  unfold bind at 1. unfold onfail at 1.
  destruct (generate_websocket_accept_world enc sha ws_key w2) as [[ac_key ->]|[msg ->]].
  2: { eapply (Hfail [_; _]); [cbn [length]; lia|].
       unfold log. cbn [ws xrand_src stderr]. rewrite <- app_assoc. reflexivity. }
  cbv zeta.
  destruct (strstr _ _) as [p|].
  2: { rewrite throw_eq. eapply (Hfail [_]); [cbn [length]; lia | reflexivity]. }
  destruct (negb _).
  { rewrite throw_eq. eapply (Hfail [_]); [cbn [length]; lia | reflexivity]. }
  unfold ret.
  apply (Hleaf _ _ [request host path ws_key] 4095%nat []);
    try reflexivity; try (cbn [length]; lia).
  symmetry. apply app_nil_r.
Qed.

(** X17: the footprint of a handshake, whatever its outcome and
    whatever the peer answers.  It draws exactly 16 random values, makes
    at most one write, takes at most 4095 bytes off the stream in a call
    that is not a [net_readn], and leaves the [remaining] counter alone.
    A successful handshake prints nothing; a failed one prints one or two
    diagnostics. *)
Theorem handshake_footprint enc sha host path w :
  let r := fst (websocket_handshake enc sha host path w) in
  let w' := snd (websocket_handshake enc sha host path w) in
  remaining (ws w') = remaining (ws w)
  /\ rd (net (ws w')) = rd (net (ws w))
  /\ xrand_src w' = skipn 16 (xrand_src w)
  /\ (exists out, tx (net (ws w')) = tx (net (ws w)) ++ out /\ (length out <= 1)%nat)
  /\ (exists k, rx (net (ws w')) = skipn k (rx (net (ws w))) /\ (k <= 4095)%nat)
  /\ match r with
     | Ret _ => stderr w' = stderr w
     | Fail => exists msgs, stderr w' = stderr w ++ msgs /\ (1 <= length msgs <= 2)%nat
     end.
Proof. exact (handshake_leaves enc sha host path w). Qed.

(** ** Connection life cycle *)

Section Connect.
Variable enc : Z -> list byte -> option (list byte).
Variable sha : list byte -> list byte.
Variable proxy : Type.
Variables host path : list byte.
Variables port tls : Z.
Variable px : proxy.
Variable s : session.

(** The session a failed step leaves: the link closed, then the
    diagnostic printed. *)
Let closed (msg : string) (s1 : session) : session :=
  mk_session (log msg (s_world (net_close s1))) (s_peer s1) (s_events s1 ++ [EvClose]).

(** The session once the link [h] is installed. *)
Let linked (h : net_handle) : session :=
  mk_session (connected_world h s) (s_peer s) (s_events s ++ [EvConnect host port]).

(** The last step: the upgrade handshake, closing the link if it fails. *)
Let upgrade (s1 : session) : result unit * session :=
  match websocket_handshake enc sha host path (s_world s1) with
  | (Ret a, w') => (Ret a, mk_session w' (s_peer s1) (s_events s1))
  | (Fail, w') => (Fail, closed "websocket_handshake error\n"
                           (mk_session w' (s_peer s1) (s_events s1)))
  end.

Lemma websocket_connect_run :
  websocket_connect enc sha proxy host port path tls px s
  = match connect_link (s_peer s) with
    | None =>
      (Fail, closed "net_connect error\n"
               (s_event (EvConnect host port) (s_set_ws (mk_ws (mk_net [] [] [] 0) 0) s)))
    | Some h =>
      if tls =? 0 then upgrade (linked h)
      else if tls_ok (s_peer s) then upgrade (s_event EvTlsHandshake (linked h))
           else (Fail, closed "net_tls_handshake error\n" (s_event EvTlsHandshake (linked h)))
    end.
Proof.
  unfold websocket_connect, upgrade.
  set (hs := websocket_handshake enc sha host path). clearbody hs.
  unfold sbind at 1. unfold memset_ws at 1.
  unfold sbind at 1. unfold or_close at 1. unfold net_connect at 1.
  cbn [s_set_ws s_peer].
  destruct (connect_link (s_peer s)) as [h|]; [|reflexivity].
  change (s_set_ws _ (s_event _ (s_set_ws _ s))) with (linked h).
  destruct (tls =? 0); cbn [negb].
  - unfold sbind at 1. unfold or_close, lift.
    destruct (hs (s_world (linked h))) as [[[]|] w1]; reflexivity.
  - unfold sbind at 1. unfold or_close at 1. unfold net_tls_handshake.
    change (s_peer (linked h)) with (s_peer s).
    destruct (tls_ok (s_peer s)); [|reflexivity].
    unfold or_close, lift.
    destruct (hs (s_world (s_event EvTlsHandshake (linked h)))) as [[[]|] w1]; reflexivity.
Qed.

Lemma upgrade_events s1 :
  s_events (snd (upgrade s1))
  = s_events s1 ++ match fst (upgrade s1) with Ret _ => [] | Fail => [EvClose] end.
Proof.
  unfold upgrade.
  destruct (websocket_handshake enc sha host path (s_world s1)) as [[[]|] w1];
    cbn [fst snd closed s_events]; [symmetry; apply app_nil_r | reflexivity].
Qed.

(** X18: the transport calls of [websocket_connect], in order.  It
    always connects first, performs the TLS handshake only when [tls] is
    set and the connection came about, and calls [net_close] exactly
    once, as the last call, exactly when it returns -1. *)
Theorem connect_transport_calls :
  s_events (snd (websocket_connect enc sha proxy host port path tls px s))
  = s_events s
    ++ [EvConnect host port]
    ++ (if tls =? 0 then []
        else match connect_link (s_peer s) with Some _ => [EvTlsHandshake] | None => [] end)
    ++ match fst (websocket_connect enc sha proxy host port path tls px s) with
       | Ret _ => []
       | Fail => [EvClose]
       end.
Proof.
  rewrite websocket_connect_run.
  destruct (connect_link (s_peer s)) as [h|].
  2: { destruct (tls =? 0); cbn [fst snd closed s_events s_event s_set_ws app];
       rewrite <- app_assoc; reflexivity. }
  destruct (tls =? 0).
  - rewrite upgrade_events. cbn [linked s_events app]. rewrite <- app_assoc. reflexivity.
  - destruct (tls_ok (s_peer s)).
    + rewrite upgrade_events. cbn [linked s_event s_events app].
      rewrite <- !app_assoc. reflexivity.
    + cbn [fst snd closed linked s_event s_events app]. rewrite <- !app_assoc. reflexivity.
Qed.

(** X19: when [websocket_connect] returns 0, the connection came about,
    the TLS handshake succeeded if one was asked for, and the upgrade
    handshake, run on the zeroed object with the new link, returned 0;
    the counter is zero, so the first receive starts with a header, and
    nothing was printed. *)
Theorem connect_success s' :
  websocket_connect enc sha proxy host port path tls px s = (Ret tt, s') ->
  exists h,
    connect_link (s_peer s) = Some h
    /\ (tls <> 0 -> tls_ok (s_peer s) = true)
    /\ websocket_handshake enc sha host path (connected_world h s) = (Ret tt, s_world s')
    /\ remaining (ws (s_world s')) = 0
    /\ stderr (s_world s') = stderr (s_world s).
Proof.
  rewrite websocket_connect_run.
  destruct (connect_link (s_peer s)) as [h|]; [|discriminate].
  intros Hrun. exists h. split; [reflexivity|].
  assert (Hup : forall s1, s_world s1 = connected_world h s ->
                           upgrade s1 = (Ret tt, s') ->
            websocket_handshake enc sha host path (connected_world h s) = (Ret tt, s_world s')
            /\ remaining (ws (s_world s')) = 0
            /\ stderr (s_world s') = stderr (s_world s)).
  { intros s1 Hw Hs1. unfold upgrade in Hs1. rewrite Hw in Hs1.
    pose proof (handshake_leaves enc sha host path (connected_world h s)) as Hleaves.
    cbv zeta in Hleaves.
    destruct (websocket_handshake enc sha host path (connected_world h s)) as [[[]|] w1];
      [|discriminate].
    inversion Hs1; subst s'. cbn [s_world fst snd] in *.
    destruct Hleaves as (Hrem & _ & _ & _ & _ & Herr).
    split; [reflexivity|]. split; [exact Hrem | exact Herr]. }
  destruct (tls =? 0) eqn:Et.
  - split; [intros Hne; apply Z.eqb_eq in Et; contradiction|].
    exact (Hup (linked h) eq_refl Hrun).
  - destruct (tls_ok (s_peer s)); [|discriminate].
    split; [reflexivity|].
    exact (Hup (s_event EvTlsHandshake (linked h)) eq_refl Hrun).
Qed.

(** X20: a connect that fails before the upgrade handshake, because no
    connection comes about or because the TLS handshake fails, returns
    -1 with one diagnostic; no random value is drawn and nothing is
    written on the link. *)
Theorem connect_fails_before_handshake :
  connect_link (s_peer s) = None \/ (tls <> 0 /\ tls_ok (s_peer s) = false) ->
  let s' := snd (websocket_connect enc sha proxy host port path tls px s) in
  fst (websocket_connect enc sha proxy host port path tls px s) = Fail
  /\ xrand_src (s_world s') = xrand_src (s_world s)
  /\ tx (net (ws (s_world s')))
     = match connect_link (s_peer s) with Some h => tx h | None => [] end
  /\ stderr (s_world s')
     = stderr (s_world s)
       ++ [match connect_link (s_peer s) with
           | Some _ => "net_tls_handshake error\n"
           | None => "net_connect error\n"
           end%string].
Proof.
  intros Hearly. cbv zeta. rewrite websocket_connect_run.
  destruct (connect_link (s_peer s)) as [h|].
  - destruct Hearly as [Hnone|[Htls Hbad]]; [discriminate|].
    apply Z.eqb_neq in Htls. rewrite Htls, Hbad. repeat split.
  - repeat split.
Qed.

End Connect.

(** A TLS connect to a server that answers with the right accept value. *)
Lemma connect_success_witness :
  remaining
    (ws (s_world (snd (websocket_connect base64_encode sha1 unit (str "example.com") 443
                         (str "/chat") 1 tt
                         (mk_session (init_world [] [] 0)
                            (mk_peer (Some (mk_net (status_line ++ crlf ++ accept_header
                                                    ++ str "ICX+Yqv66kxgM0FcWaLWlFLwTAI="
                                                    ++ crlf ++ crlf) [] [] 1)) true) [])))))
  = 0.
Proof.
  destruct (connect_success base64_encode sha1 unit (str "example.com") (str "/chat") 443 1 tt
              (mk_session (init_world [] [] 0)
                 (mk_peer (Some (mk_net (status_line ++ crlf ++ accept_header
                                         ++ str "ICX+Yqv66kxgM0FcWaLWlFLwTAI="
                                         ++ crlf ++ crlf) [] [] 1)) true) [])
              _ ltac:(vm_compute; reflexivity))
    as (h & _ & _ & _ & Hrem & _).
  exact Hrem.
Defined.

(** No connection comes about, and a connection whose TLS handshake
    fails. *)
Lemma connect_fails_before_handshake_witness :
  fst (websocket_connect base64_encode sha1 unit (str "example.com") 443 (str "/chat") 1 tt
         (mk_session (init_world [] [] 0) (mk_peer None true) []))
  = Fail
  /\ fst (websocket_connect base64_encode sha1 unit (str "example.com") 443 (str "/chat") 1 tt
            (mk_session (init_world [] [] 0)
               (mk_peer (Some (mk_net status_line [] [] 1)) false) []))
     = Fail.
Proof.
  split.
  - apply (connect_fails_before_handshake base64_encode sha1 unit
             (str "example.com") (str "/chat") 443 1 tt
             (mk_session (init_world [] [] 0) (mk_peer None true) [])).
    left. reflexivity.
  - apply (connect_fails_before_handshake base64_encode sha1 unit
             (str "example.com") (str "/chat") 443 1 tt
             (mk_session (init_world [] [] 0)
                (mk_peer (Some (mk_net status_line [] [] 1)) false) [])).
    right. split; [lia | reflexivity].
Defined.

(** ** Closing *)

Lemma close_frame_header host : base_header host WEBSOCKET_CLOSE 0 = [Byte.x88; Byte.x80].
Proof. reflexivity. Qed.

(** X21: [websocket_close] is best effort.  It draws a mask key and
    tries to send an empty close frame: on a link that accepts a write
    the six bytes 0x88, 0x80 and the key go out in one call; on a link
    that does not, the send prints its diagnostic and its -1 is dropped.
    Either way [net_close] is then called, once, and the counter is not
    touched. *)
Theorem close_is_best_effort host s :
  let s' := snd (websocket_close host s) in
  let w := s_world s in
  let w' := s_world s' in
  s_events s' = s_events s ++ [EvClose]
  /\ xrand_src w' = skipn 4 (xrand_src w)
  /\ remaining (ws w') = remaining (ws w)
  /\ match tx_credit (net (ws w)) with
     | O => tx (net (ws w')) = tx (net (ws w))
            /\ stderr w' = stderr w ++ ["net_write error\n"%string]
     | S _ => tx (net (ws w'))
              = tx (net (ws w)) ++ [[Byte.x88; Byte.x80] ++ random_bytes 4 (xrand_src w)]
              /\ stderr w' = stderr w
     end.
Proof.
  cbv zeta. unfold websocket_close, lift.
  rewrite websocket_send_run.
  change (Zlength (@nil byte)) with 0. rewrite close_frame_header.
  destruct (tx_credit (net (ws (s_world s)))) as [|c] eqn:Ec.
  - erewrite bind_fail by (apply onfail_fail, net_write_refused; exact Ec).
    repeat split.
  - erewrite bind_ret by (apply onfail_ret, net_write_ok; cbn; lia).
    repeat split.
Qed.
